(** * Batch renamer: rename_images.py, rename_images_v2.py, rename_images_v3.py

    A shallow embedding of the three versions of the renaming script and
    the properties of the pass over the base directory [images].

    What is modelled
    - the base directory as a finite map from file names to file contents,
      or [None] when the directory is absent or cannot be read;
    - [os.path.exists], [os.listdir] and [os.rename] as functions on that
      map; [os.rename] and [os.listdir] may raise;
    - the global dict [mapping] as an insertion-ordered association list
      held in the interpreter state;
    - [print] and [log.write] as appends to two streams of text records.

    What is left to the environment (record [os_env])
    - the platform (POSIX replaces an existing destination, Windows
      raises), the files the OS refuses to rename and the text of the
      error it raises for them, the order in which a directory is listed,
      and Python's [repr] of a list of strings.

    This first part takes the base directory to hold regular files
    only, each under one name that the file system keeps byte for byte,
    and takes every write to the console and to [rename_log.txt] to
    succeed. The part [Full], at the end, runs the three scripts without
    these assumptions: hard links, dangling symbolic links and
    subdirectories, names the file system spells in its own way, a
    directory that cannot be listed or searched, a console that cannot
    encode the names, a log that cannot be opened or cannot take a
    listed name. *)

From stdpp Require Import gmap strings list fin_maps.

(** ** File system *)

(** The bytes of a file. *)
Definition content := string.

Abbreviation dir := (gmap string content).

Inductive platform := Posix | Windows.

(** A Python exception; [str e] is what [f"{e}"] prints. *)
Record exn := OSError { str : string }.

Record os_env := {
  plat : platform;
  (** files the OS refuses to rename, with the text of the error *)
  locked : gmap string string;
  (** the order in which [os.listdir] reports the names of a directory *)
  readdir : dir → list string;
  (** Python's [repr] of a list of strings *)
  repr : list string → string
}.

(** [os.listdir] reports every name once, in an order the OS chooses. *)
Definition readdir_ok (E : os_env) : Prop :=
  ∀ d : dir, NoDup (readdir E d) ∧ ∀ f, f ∈ readdir E d ↔ is_Some (d !! f).

Definition enoent : string := "[Errno 2] No such file or directory".
Definition eexist : string :=
  "[WinError 183] Cannot create a file when that file already exists".

(** [os.path.exists(os.path.join(base_dir, name))] *)
Definition os_path_exists (o : option dir) (name : string) : bool :=
  match o with
  | Some d => bool_decide (is_Some (d !! name))
  | None => false
  end.

(** [os.listdir(base_dir)] *)
Definition os_listdir (E : os_env) (o : option dir) : exn + list string :=
  match o with
  | Some d => inr (readdir E d)
  | None => inl (OSError enoent)
  end.

(** [os.rename(os.path.join(base_dir, old), os.path.join(base_dir, new))]:
    the new directory, or the exception raised. *)
Definition os_rename (E : os_env) (old new : string) (o : option dir)
  : exn + dir :=
  match o with
  | None => inl (OSError enoent)
  | Some d =>
    match d !! old with
    | None => inl (OSError enoent)
    | Some c =>
      match locked E !! old with
      | Some msg => inl (OSError msg)
      | None =>
        match plat E, d !! new with
        | Windows, Some _ => inl (OSError eexist)
        | _, _ => inr (<[new := c]> (delete old d))
        end
      end
    end
  end.

(** ** The table *)

Definition base_dir : string := "images".
Definition log_file : string := "rename_log.txt".

Definition mapping : list (string * string) := [
  ("건희.png", "member-geonhee.png");
  ("경준.jpeg", "member-kyungjun.jpeg");
  ("고양이.jpg", "cat-mascot.jpg");
  ("앨범 소개 2.png", "album-intro-2.png");
  ("앨범 소개 3.png", "album-intro-3.png");
  ("앨범 표지 1.png", "album-cover-1.png");
  ("윤태.png", "member-yuntae.png");
  ("진호.png", "member-jinho.png");
  ("찬희.png", "member-chanhee.png");
  ("현상금 윤태.png", "wanted-yuntae.png")
].

(** [mapping[k]], or [None] when [k in mapping] is false. *)
Fixpoint dict_get (k : string) (m : list (string * string)) : option string :=
  match m with
  | [] => None
  | (k', v) :: m' => if decide (k = k') then Some v else dict_get k m'
  end.

(** The key a value is stored under (the first one). *)
Fixpoint dict_rget (v : string) (m : list (string * string)) : option string :=
  match m with
  | [] => None
  | (k, v') :: m' => if decide (v = v') then Some k else dict_rget v m'
  end.

(** [k in s] on strings. *)
Fixpoint contains (k s : string) : bool :=
  if String.prefix k s then true
  else match s with
       | EmptyString => false
       | String _ s' => contains k s'
       end.

(** ** Interpreter state *)

Record pystate := {
  fs : option dir;                       (** the directory [images] *)
  g_mapping : list (string * string);    (** the global [mapping] *)
  stdout : list string;                  (** one record per [print] *)
  log : list string                      (** one record per [log.write] *)
}.

Definition boot (o : option dir) : pystate :=
  {| fs := o; g_mapping := []; stdout := []; log := [] |}.

Definition set_fs (d : dir) (st : pystate) : pystate :=
  {| fs := Some d; g_mapping := g_mapping st;
     stdout := stdout st; log := log st |}.

Definition set_mapping (m : list (string * string)) (st : pystate) : pystate :=
  {| fs := fs st; g_mapping := m; stdout := stdout st; log := log st |}.

Definition print (s : string) (st : pystate) : pystate :=
  {| fs := fs st; g_mapping := g_mapping st;
     stdout := stdout st ++ [s]; log := log st |}.

Definition log_write (s : string) (st : pystate) : pystate :=
  {| fs := fs st; g_mapping := g_mapping st;
     stdout := stdout st; log := log st ++ [s] |}.

(** [open(log_file, "w")] truncates the log. *)
Definition open_log (st : pystate) : pystate :=
  {| fs := fs st; g_mapping := g_mapping st; stdout := stdout st; log := [] |}.

(** How a run ends: normally, or with an exception nobody caught. *)
Inductive result :=
  | Exit0 (st : pystate)
  | Traceback (e : exn) (st : pystate).

Definition exit_status (r : result) : nat :=
  match r with Exit0 _ => 0 | Traceback _ _ => 1 end.

Definition final (r : result) : pystate :=
  match r with Exit0 st => st | Traceback _ st => st end.

(** [for x in xs: body] *)
Fixpoint for_each {A} (body : A → pystate → pystate) (xs : list A)
  (st : pystate) : pystate :=
  match xs with
  | [] => st
  | x :: xs' => for_each body xs' (body x st)
  end.

(** ** Messages *)

Definition nl : string := String (Ascii.ascii_of_nat 10) EmptyString.

Definition msg_renamed (old new : string) : string :=
  "Renamed: " +:+ old +:+ " -> " +:+ new.
Definition msg_error (old text : string) : string :=
  "Error renaming " +:+ old +:+ ": " +:+ text.
Definition msg_not_found (old : string) : string :=
  "File not found: " +:+ old.
Definition msg_skipped (f : string) : string :=
  "Skipped: " +:+ f.
Definition msg_global (text : string) : string :=
  "Global error: " +:+ text.

(** ** rename_images.py *)

Definition v1_body (E : os_env) (entry : string * string) (st : pystate)
  : pystate :=
  let '(old_name, new_name) := entry in
  if os_path_exists (fs st) old_name then
    match os_rename E old_name new_name (fs st) with
    | inr d' => print (msg_renamed old_name new_name) (set_fs d' st)
    | inl e => print (msg_error old_name (str e)) st
    end
  else print (msg_not_found old_name) st.

Definition rename_images (E : os_env) (o : option dir) : result :=
  let st := set_mapping mapping (boot o) in
  Exit0 (for_each (v1_body E) (g_mapping st) st).

(** ** rename_images_v2.py *)

(** The [else] branch of the loop: every matching key ends in [pass]. *)
Definition v2_loose_match (filename : string) (st : pystate) : pystate :=
  for_each (λ '(k, v) st', if contains k filename then st' else st')
           (g_mapping st) st.

Definition v2_body (E : os_env) (filename : string) (st : pystate) : pystate :=
  match dict_get filename (g_mapping st) with
  | Some new_name =>
    match os_rename E filename new_name (fs st) with
    | inr d' => print (msg_renamed filename new_name) (set_fs d' st)
    | inl e => print (msg_error filename (str e)) st
    end
  | None => v2_loose_match filename st
  end.

Definition rename_images_v2 (E : os_env) (o : option dir) : result :=
  let st := boot o in
  match os_listdir E (fs st) with
  | inl e => Traceback e st
  | inr files =>
    let st := print ("Files in " +:+ base_dir +:+ ": " +:+ repr E files) st in
    let st := set_mapping mapping st in
    Exit0 (for_each (v2_body E) files st)
  end.

(** ** rename_images_v3.py *)

Definition v3_body (E : os_env) (filename : string) (st : pystate) : pystate :=
  match dict_get filename (g_mapping st) with
  | Some new_name =>
    match os_rename E filename new_name (fs st) with
    | inr d' =>
      log_write (msg_renamed filename new_name +:+ nl) (set_fs d' st)
    | inl e => log_write (msg_error filename (str e) +:+ nl) st
    end
  | None => log_write (msg_skipped filename +:+ nl) st
  end.

Definition rename_images_v3 (E : os_env) (o : option dir) : result :=
  let st := set_mapping mapping (boot o) in
  let st := open_log st in
  let st :=
    match os_listdir E (fs st) with
    | inr files =>
      let st := log_write ("Files found: " +:+ repr E files +:+ nl) st in
      for_each (v3_body E) files st
    | inl e => log_write (msg_global (str e) +:+ nl) st
    end in
  Exit0 (print "Done" st).

(** ** The three versions side by side *)

Inductive version := V1 | V2 | V3.

Definition run (ver : version) : os_env → option dir → result :=
  match ver with
  | V1 => rename_images
  | V2 => rename_images_v2
  | V3 => rename_images_v3
  end.

(** Where a version reports: the console (v1, v2) or the log file (v3). *)
Definition report (ver : version) (st : pystate) : list string :=
  match ver with V3 => log st | _ => stdout st end.

(** A record as the version writes it: v3 ends each with a newline. *)
Definition line (ver : version) (s : string) : string :=
  match ver with V3 => s +:+ nl | _ => s end.

Definition is_renamed (l : string) : bool := String.prefix "Renamed: " l.
Definition is_error (l : string) : bool := String.prefix "Error renaming " l.
Definition is_not_found (l : string) : bool := String.prefix "File not found: " l.
Definition is_skipped (l : string) : bool := String.prefix "Skipped: " l.
Definition is_listing (l : string) : bool :=
  String.prefix "Files in " l || String.prefix "Files found: " l.


(** A permissive environment, for running the scripts on examples. *)
Definition env0 (p : platform) : os_env :=
  {| plat := p; locked := ∅;
     readdir := λ d, (map_to_list d).*1;
     repr := λ fs, String.concat ", " fs |}.

Definition cat : string := "고양이.jpg".
Definition cat_mascot : string := "cat-mascot.jpg".


(** ** What a pass does, stated on the directory it starts from *)

(** The text of the exception [os.rename] raises in directory [d], if any. *)
Definition rename_err (E : os_env) (d : dir) (old new : string)
  : option string :=
  match os_rename E old new (Some d) with
  | inl e => Some (str e)
  | inr _ => None
  end.

Definition rename_ok (E : os_env) (d : dir) (old new : string) : bool :=
  bool_decide (rename_err E d old new = None).

(** One step of a pass seen from the directory alone. *)
Definition attempt (E : os_env) (m : list (string * string)) (d : dir)
  (f : string) : dir :=
  match dict_get f m with
  | Some v =>
    match os_rename E f v (Some d) with inr d' => d' | inl _ => d end
  | None => d
  end.

(** The name [f] after the files [ks] were processed, read off the
    directory [d0] the pass started from. *)
Definition moved (E : os_env) (m : list (string * string)) (d0 : dir)
  (ks : list string) (f : string) : option content :=
  match dict_get f m with
  | Some v =>
    if bool_decide (f ∈ ks) && rename_ok E d0 f v then None else d0 !! f
  | None =>
    match dict_rget f m with
    | Some k =>
      if bool_decide (k ∈ ks) && rename_ok E d0 k f then d0 !! k else d0 !! f
    | None => d0 !! f
    end
  end.

(** The record written for a rename that was tried. *)
Definition say_try (E : os_env) (d : dir) (old new : string) : string :=
  match rename_err E d old new with
  | None => msg_renamed old new
  | Some text => msg_error old text
  end.

Definition v1_says (E : os_env) (d : dir) (entry : string * string) : string :=
  if bool_decide (is_Some (d !! entry.1)) then say_try E d entry.1 entry.2
  else msg_not_found entry.1.

Definition v2_says (E : os_env) (m : list (string * string)) (d : dir)
  (f : string) : list string :=
  match dict_get f m with
  | Some v => [say_try E d f v]
  | None => []
  end.

Definition v3_says (E : os_env) (m : list (string * string)) (d : dir)
  (f : string) : string :=
  match dict_get f m with
  | Some v => say_try E d f v +:+ nl
  | None => msg_skipped f +:+ nl
  end.

(** A table a pass can rely on: no key twice, no destination twice, and
    no destination that is also a key. *)
Record table_ok (m : list (string * string)) : Prop := {
  keys_nodup : NoDup m.*1;
  vals_nodup : NoDup m.*2;
  keys_not_vals : ∀ k, k ∈ m.*1 → k ∉ m.*2
}.

Definition ascii_safe_char (c : Ascii.ascii) : bool :=
  let n := Ascii.nat_of_ascii c in
  ((97 <=? n) && (n <=? 122))        (* a-z *)
  || ((65 <=? n) && (n <=? 90))      (* A-Z *)
  || ((48 <=? n) && (n <=? 57))      (* 0-9 *)
  || (n =? 45) || (n =? 46) || (n =? 95).   (* - . _ *)

(** A non-empty name over the portable file name characters. *)
Fixpoint all_chars (p : Ascii.ascii → bool) (s : string) : bool :=
  match s with
  | EmptyString => true
  | String c s' => p c && all_chars p s'
  end.

Definition ascii_safe (s : string) : bool :=
  negb (bool_decide (s = "")) && all_chars ascii_safe_char s.

Definition is_ascii (s : string) : bool :=
  all_chars (λ c, Ascii.nat_of_ascii c <? 128) s.

(** * Lemmas *)

(** ** The table as a dict *)

Lemma dict_get_Some k v m : dict_get k m = Some v → (k, v) ∈ m.
Proof.
  induction m as [|[k' v'] m IH]; simpl; [done|].
  case_decide as Hk; intros Hg.
  - injection Hg as <-. subst. left.
  - right. auto.
Qed.

Lemma dict_get_None k m : dict_get k m = None ↔ k ∉ m.*1.
Proof.
  induction m as [|[k' v'] m IH]; simpl.
  - split; [intros _; apply not_elem_of_nil | done].
  - rewrite not_elem_of_cons. case_decide; naive_solver.
Qed.

Lemma dict_get_elem k v m : NoDup m.*1 → (k, v) ∈ m → dict_get k m = Some v.
Proof.
  induction m as [|[k' v'] m IH]; simpl.
  - intros _ H. by apply elem_of_nil in H.
  - rewrite NoDup_cons. intros [Hk Hnd] [H|H]%elem_of_cons.
    + injection H as -> ->. by rewrite decide_True.
    + rewrite decide_False; [auto|].
      intros ->. apply Hk. apply list_elem_of_fmap. by exists (k', v).
Qed.

Lemma dict_rget_Some k v m : dict_rget v m = Some k → (k, v) ∈ m.
Proof.
  induction m as [|[k' v'] m IH]; simpl; [done|].
  case_decide as Hk; intros Hg.
  - injection Hg as <-. subst. left.
  - right. auto.
Qed.

Lemma dict_rget_None v m : dict_rget v m = None ↔ v ∉ m.*2.
Proof.
  induction m as [|[k' v'] m IH]; simpl.
  - split; [intros _; apply not_elem_of_nil | done].
  - rewrite not_elem_of_cons. case_decide; naive_solver.
Qed.

Lemma dict_rget_elem k v m : NoDup m.*2 → (k, v) ∈ m → dict_rget v m = Some k.
Proof.
  induction m as [|[k' v'] m IH]; simpl.
  - intros _ H. by apply elem_of_nil in H.
  - rewrite NoDup_cons. intros [Hk Hnd] [H|H]%elem_of_cons.
    + injection H as -> ->. by rewrite decide_True.
    + rewrite decide_False; [auto|].
      intros ->. apply Hk. apply list_elem_of_fmap. by exists (k, v').
Qed.

Lemma elem_keys (k v : string) (m : list (string * string)) :
  (k, v) ∈ m → k ∈ m.*1.
Proof. intros H. apply list_elem_of_fmap. by exists (k, v). Qed.

Lemma elem_vals (k v : string) (m : list (string * string)) :
  (k, v) ∈ m → v ∈ m.*2.
Proof. intros H. apply list_elem_of_fmap. by exists (k, v). Qed.

Section table.
Context (m : list (string * string)) (Hm : table_ok m).

Lemma get_rget k v : dict_get k m = Some v → dict_rget v m = Some k.
Proof.
  intros H%dict_get_Some. apply dict_rget_elem; [apply Hm | done].
Qed.

Lemma rget_get k v : dict_rget v m = Some k → dict_get k m = Some v.
Proof.
  intros H%dict_rget_Some. apply dict_get_elem; [apply Hm | done].
Qed.

Lemma val_not_key k v : dict_get k m = Some v → dict_get v m = None.
Proof.
  intros H%dict_get_Some. apply dict_get_None. intros Hv.
  by eapply (keys_not_vals m Hm v), elem_vals.
Qed.

Lemma key_not_val k v : dict_get k m = Some v → dict_rget k m = None.
Proof.
  intros H%dict_get_Some. apply dict_rget_None.
  by eapply (keys_not_vals m Hm k), elem_keys.
Qed.

Lemma key_ne_val k v : dict_get k m = Some v → k ≠ v.
Proof. intros H <-. apply val_not_key in H as H'. congruence. Qed.

End table.

(** ** One rename *)

Lemma os_rename_inr E d f v d' :
  os_rename E f v (Some d) = inr d' →
  ∃ c, d !! f = Some c ∧ d' = <[v := c]> (delete f d).
Proof.
  unfold os_rename. destruct (d !! f) as [c|]; [|done].
  destruct (locked E !! f); [done|].
  destruct (plat E), (d !! v); try done; intros [= <-]; eauto.
Qed.

Lemma rename_err_present E d f v :
  rename_err E d f v = None → is_Some (d !! f).
Proof.
  unfold rename_err. destruct (os_rename E f v (Some d)) as [|d'] eqn:Hr; [done|].
  apply os_rename_inr in Hr as (c & -> & _). eauto.
Qed.

(** Whether a rename goes through depends on the two names only. *)
Lemma rename_err_stable E d d' f v :
  d !! f = d' !! f → d !! v = d' !! v →
  rename_err E d f v = rename_err E d' f v.
Proof.
  unfold rename_err, os_rename. intros -> ->.
  destruct (d' !! f); [|done]. destruct (locked E !! f); [done|].
  by destruct (plat E), (d' !! v).
Qed.

Lemma rename_ok_stable E d d' f v :
  d !! f = d' !! f → d !! v = d' !! v →
  rename_ok E d f v = rename_ok E d' f v.
Proof.
  intros Hf Hv. unfold rename_ok. by rewrite (rename_err_stable E d d' f v).
Qed.

Lemma say_try_stable E d d' f v :
  d !! f = d' !! f → d !! v = d' !! v → say_try E d f v = say_try E d' f v.
Proof.
  intros Hf Hv. unfold say_try. by rewrite (rename_err_stable E d d' f v).
Qed.

Lemma attempt_unmapped E m d f : dict_get f m = None → attempt E m d f = d.
Proof. unfold attempt. by intros ->. Qed.

Lemma attempt_lookup E m d f v x :
  dict_get f m = Some v → f ≠ v →
  attempt E m d f !! x =
    if rename_ok E d f v then
      if decide (x = v) then d !! f
      else if decide (x = f) then None else d !! x
    else d !! x.
Proof.
  intros Hg Hne. unfold attempt, rename_ok, rename_err. rewrite Hg.
  destruct (os_rename E f v (Some d)) as [e|d'] eqn:Hr; simpl; [done|].
  apply os_rename_inr in Hr as (c & Hc & ->).
  destruct (decide (x = v)) as [->|Hxv].
  - by rewrite lookup_insert_eq.
  - rewrite lookup_insert_ne by done.
    destruct (decide (x = f)) as [->|Hxf].
    + by rewrite lookup_delete_eq.
    + by rewrite lookup_delete_ne.
Qed.

(** ** A whole pass, on the directory *)

Section pass.
Context (E : os_env) (m : list (string * string)) (Hm : table_ok m).

Lemma moved_key d0 ks f v :
  dict_get f m = Some v →
  moved E m d0 ks f =
    if bool_decide (f ∈ ks) && rename_ok E d0 f v then None else d0 !! f.
Proof. unfold moved. by intros ->. Qed.

Lemma moved_val d0 ks k v :
  dict_get k m = Some v →
  moved E m d0 ks v =
    if bool_decide (k ∈ ks) && rename_ok E d0 k v then d0 !! k else d0 !! v.
Proof.
  intros Hg. unfold moved.
  by rewrite (val_not_key m Hm k v Hg), (get_rget m Hm k v Hg).
Qed.

Lemma moved_other d0 ks f :
  dict_get f m = None → dict_rget f m = None → moved E m d0 ks f = d0 !! f.
Proof. unfold moved. by intros -> ->. Qed.

Lemma moved_snoc_ne d0 ks k f :
  (f = k → dict_get k m = None) → dict_rget f m ≠ Some k →
  moved E m d0 (ks ++ [k]) f = moved E m d0 ks f.
Proof.
  intros Hne Hr. unfold moved.
  assert (∀ y, y ≠ k → bool_decide (y ∈ ks ++ [k]) = bool_decide (y ∈ ks))
    as Hin.
  { intros y Hy. apply bool_decide_ext. rewrite elem_of_app, list_elem_of_singleton.
    naive_solver. }
  destruct (dict_get f m) as [v|] eqn:Hg.
  - rewrite Hin; [done|]. intros ->. specialize (Hne eq_refl). congruence.
  - destruct (dict_rget f m) as [k'|]; [|done].
    rewrite Hin; [done|congruence].
Qed.

(** Whatever the order, the pass over the names [ks] leaves each name
    as [moved] says. *)
Lemma fold_attempt_lookup d0 ks f :
  NoDup ks → foldl (attempt E m) d0 ks !! f = moved E m d0 ks f.
Proof.
  revert f. induction ks as [|x ks IH] using rev_ind; intros f Hnd.
  - simpl. unfold moved.
    destruct (dict_get f m); [done|]. by destruct (dict_rget f m).
  - apply NoDup_app in Hnd as (Hnd & Hx & _).
    assert (x ∉ ks) as Hxks.
    { intros Hin. apply (Hx x Hin). left. }
    rewrite foldl_snoc. set (d := foldl (attempt E m) d0 ks).
    destruct (dict_get x m) as [v|] eqn:Hg.
    + pose proof (key_ne_val m Hm x v Hg) as Hxv.
      assert (d !! x = d0 !! x) as Hdx.
      { unfold d. rewrite IH, (moved_key d0 ks x v Hg) by done.
        by rewrite bool_decide_false. }
      assert (d !! v = d0 !! v) as Hdv.
      { unfold d. rewrite IH, (moved_val d0 ks x v Hg) by done.
        by rewrite bool_decide_false. }
      rewrite (attempt_lookup E m d x v f Hg Hxv).
      rewrite (rename_ok_stable E d d0 x v Hdx Hdv).
      destruct (decide (f = v)) as [->|Hfv].
      * rewrite (moved_val d0 _ x v Hg).
        rewrite bool_decide_true by (apply elem_of_app; right; left).
        simpl. destruct (rename_ok E d0 x v); done.
      * destruct (decide (f = x)) as [->|Hfx].
        -- rewrite (moved_key d0 _ x v Hg).
           rewrite bool_decide_true by (apply elem_of_app; right; left).
           simpl. destruct (rename_ok E d0 x v); done.
        -- rewrite moved_snoc_ne; [|done|].
           ++ unfold d. rewrite IH by done. by destruct (rename_ok E d0 x v).
           ++ intros Hr%(rget_get m Hm). congruence.
    + rewrite attempt_unmapped by done. unfold d. rewrite IH by done.
      symmetry. apply moved_snoc_ne; [done|].
      intros Hr%(rget_get m Hm). congruence.
Qed.
End pass.

(** ** The loop bodies, one step *)

Lemma for_each_snoc {A} (body : A → pystate → pystate) xs x st :
  for_each body (xs ++ [x]) st = body x (for_each body xs st).
Proof. revert st. induction xs as [|y xs IH]; intros st; simpl; [done|apply IH]. Qed.

(** v2's loose match never changes anything. *)
Lemma v2_loose_match_noop filename st : v2_loose_match filename st = st.
Proof.
  unfold v2_loose_match. induction (g_mapping st) as [|[k v] l IH]; simpl; [done|].
  by destruct (contains k filename).
Qed.

Lemma v1_body_step E m st d k v :
  fs st = Some d → dict_get k m = Some v →
  v1_body E (k, v) st =
    {| fs := Some (attempt E m d k); g_mapping := g_mapping st;
       stdout := stdout st ++ [v1_says E d (k, v)]; log := log st |}.
Proof.
  intros Hfs Hg. unfold v1_body, v1_says, say_try, rename_err, attempt.
  rewrite Hfs, Hg. cbn [fst snd]. unfold os_path_exists.
  destruct (d !! k) as [c|] eqn:Hk.
  - rewrite !bool_decide_true by eauto.
    destruct (os_rename E k v (Some d)); simpl; [|done].
    unfold print. simpl. by rewrite Hfs.
  - rewrite !bool_decide_false by (intros [? ?]; done).
    unfold os_rename. rewrite Hk. unfold print. simpl. by rewrite Hfs.
Qed.

Lemma v2_body_step E st d f :
  fs st = Some d →
  v2_body E f st =
    {| fs := Some (attempt E (g_mapping st) d f); g_mapping := g_mapping st;
       stdout := stdout st ++ v2_says E (g_mapping st) d f; log := log st |}.
Proof.
  intros Hfs. unfold v2_body, v2_says, say_try, rename_err, attempt.
  rewrite Hfs. destruct (dict_get f (g_mapping st)) as [v|].
  - destruct (os_rename E f v (Some d)); simpl; [|done].
    unfold print. simpl. by rewrite Hfs.
  - rewrite v2_loose_match_noop, app_nil_r. destruct st; simpl in *. by subst.
Qed.

Lemma v3_body_step E st d f :
  fs st = Some d →
  v3_body E f st =
    {| fs := Some (attempt E (g_mapping st) d f); g_mapping := g_mapping st;
       stdout := stdout st; log := log st ++ [v3_says E (g_mapping st) d f] |}.
Proof.
  intros Hfs. unfold v3_body, v3_says, say_try, rename_err, attempt.
  rewrite Hfs. destruct (dict_get f (g_mapping st)) as [v|].
  - destruct (os_rename E f v (Some d)); simpl; [|done].
    unfold log_write. simpl. by rewrite Hfs.
  - unfold log_write. simpl. by rewrite Hfs.
Qed.

(** ** The loops *)

Section loops.
Context (E : os_env) (m : list (string * string)) (Hm : table_ok m).

(** A name not yet reached is as the pass found it, and so is its
    destination. *)
Lemma fold_attempt_fresh d0 ks x v :
  NoDup ks → x ∉ ks → dict_get x m = Some v →
  foldl (attempt E m) d0 ks !! x = d0 !! x ∧
  foldl (attempt E m) d0 ks !! v = d0 !! v.
Proof.
  intros Hnd Hx Hg. rewrite !(fold_attempt_lookup E m Hm) by done.
  rewrite (moved_key E m d0 ks x v Hg), (moved_val E m Hm d0 ks x v Hg).
  by rewrite bool_decide_false.
Qed.

Lemma v1_loop st d0 es :
  fs st = Some d0 → g_mapping st = m →
  NoDup es.*1 → (∀ e, e ∈ es → e ∈ m) →
  for_each (v1_body E) es st =
    {| fs := Some (foldl (attempt E m) d0 es.*1); g_mapping := m;
       stdout := stdout st ++ (v1_says E d0 <$> es); log := log st |}.
Proof.
  intros Hfs Hgm. induction es as [|[k v] es IH] using rev_ind; intros Hnd Hin.
  - simpl. rewrite app_nil_r. destruct st; simpl in *. by subst.
  - rewrite fmap_app in Hnd. simpl in Hnd.
    apply NoDup_app in Hnd as (Hnd & Hk & _).
    assert (k ∉ es.*1) as Hkes. { intros Hi. apply (Hk k Hi). left. }
    assert (dict_get k m = Some v) as Hg.
    { apply dict_get_elem; [apply Hm|]. apply Hin, elem_of_app. right. left. }
    rewrite for_each_snoc, IH; [|done|].
    2:{ intros e He. apply Hin, elem_of_app. by left. }
    erewrite v1_body_step; [|done|done]. simpl.
    destruct (fold_attempt_fresh d0 es.*1 k v Hnd Hkes Hg) as [Hdk Hdv].
    rewrite !fmap_app. cbn [fmap list_fmap fst]. rewrite foldl_snoc. f_equal.
    rewrite <-(assoc_L (++)). do 2 f_equal.
    unfold v1_says. cbn [fst snd]. rewrite Hdk.
    by rewrite (say_try_stable E _ d0 k v Hdk Hdv).
Qed.

Lemma v2_loop st d0 ks :
  fs st = Some d0 → g_mapping st = m → NoDup ks →
  for_each (v2_body E) ks st =
    {| fs := Some (foldl (attempt E m) d0 ks); g_mapping := m;
       stdout := stdout st ++ (ks ≫= v2_says E m d0); log := log st |}.
Proof.
  intros Hfs Hgm. induction ks as [|x ks IH] using rev_ind; intros Hnd.
  - simpl. rewrite app_nil_r. destruct st; simpl in *. by subst.
  - apply NoDup_app in Hnd as (Hnd & Hx & _).
    assert (x ∉ ks) as Hxks. { intros Hi. apply (Hx x Hi). left. }
    rewrite for_each_snoc, IH by done.
    erewrite v2_body_step; [|done]. simpl.
    rewrite foldl_snoc, bind_app. simpl. rewrite app_nil_r.
    f_equal. rewrite <-(assoc_L (++)). do 2 f_equal.
    unfold v2_says. destruct (dict_get x m) as [v|] eqn:Hg; [|done].
    destruct (fold_attempt_fresh d0 ks x v Hnd Hxks Hg) as [Hdk Hdv].
    by rewrite (say_try_stable E _ d0 x v Hdk Hdv).
Qed.

Lemma v3_loop st d0 ks :
  fs st = Some d0 → g_mapping st = m → NoDup ks →
  for_each (v3_body E) ks st =
    {| fs := Some (foldl (attempt E m) d0 ks); g_mapping := m;
       stdout := stdout st; log := log st ++ (v3_says E m d0 <$> ks) |}.
Proof.
  intros Hfs Hgm. induction ks as [|x ks IH] using rev_ind; intros Hnd.
  - simpl. rewrite app_nil_r. destruct st; simpl in *. by subst.
  - apply NoDup_app in Hnd as (Hnd & Hx & _).
    assert (x ∉ ks) as Hxks. { intros Hi. apply (Hx x Hi). left. }
    rewrite for_each_snoc, IH by done.
    erewrite v3_body_step; [|done]. simpl.
    rewrite foldl_snoc, fmap_app. simpl.
    f_equal. rewrite <-(assoc_L (++)). do 2 f_equal.
    unfold v3_says. destruct (dict_get x m) as [v|] eqn:Hg; [|done].
    destruct (fold_attempt_fresh d0 ks x v Hnd Hxks Hg) as [Hdk Hdv].
    by rewrite (say_try_stable E _ d0 x v Hdk Hdv).
Qed.
End loops.

(** ** The scripts *)

Lemma mapping_ok : table_ok mapping.
Proof.
  split.
  - by apply (bool_decide_unpack _).
  - by apply (bool_decide_unpack _).
  - apply Forall_forall. by apply (bool_decide_unpack _).
Qed.

(** The names a version walks over: the keys of the table (v1) or the
    listing of the directory (v2, v3). *)
Definition walked (ver : version) (E : os_env) (d0 : dir) : list string :=
  match ver with V1 => mapping.*1 | _ => readdir E d0 end.

(** The directory a version leaves behind. *)
Definition after (ver : version) (E : os_env) (d0 : dir) : dir :=
  foldl (attempt E mapping) d0 (walked ver E d0).

(** What a version reports for the directory it starts from. *)
Definition reported (ver : version) (E : os_env) (d0 : dir) : list string :=
  match ver with
  | V1 => v1_says E d0 <$> mapping
  | V2 => ("Files in " +:+ base_dir +:+ ": " +:+ repr E (readdir E d0))
          :: (readdir E d0 ≫= v2_says E mapping d0)
  | V3 => ("Files found: " +:+ repr E (readdir E d0) +:+ nl)
          :: (v3_says E mapping d0 <$> readdir E d0)
  end.

(** A name after the pass, read off the directory before it. *)
Definition landed (E : os_env) (d0 : dir) (f : string) : option content :=
  match dict_get f mapping with
  | Some v => if rename_ok E d0 f v then None else d0 !! f
  | None =>
    match dict_rget f mapping with
    | Some k => if rename_ok E d0 k f then d0 !! k else d0 !! f
    | None => d0 !! f
    end
  end.

Lemma run_v1 E d0 :
  rename_images E (Some d0) =
    Exit0 {| fs := Some (after V1 E d0); g_mapping := mapping;
             stdout := reported V1 E d0; log := [] |}.
Proof.
  unfold rename_images, after, walked, reported.
  generalize mapping_ok. generalize mapping. intros m Hm. f_equal.
  cbn [g_mapping set_mapping].
  rewrite (v1_loop E m Hm _ d0 m); try done. apply Hm.
Qed.

Lemma run_v1_absent E :
  rename_images E None =
    Exit0 {| fs := None; g_mapping := mapping;
             stdout := msg_not_found <$> mapping.*1; log := [] |}.
Proof. reflexivity. Qed.

Lemma run_v2 E d0 :
  readdir_ok E →
  rename_images_v2 E (Some d0) =
    Exit0 {| fs := Some (after V2 E d0); g_mapping := mapping;
             stdout := reported V2 E d0; log := [] |}.
Proof.
  intros HE. unfold rename_images_v2, after, walked, reported.
  generalize mapping_ok. generalize mapping. intros m Hm.
  cbn [os_listdir fs boot]. f_equal.
  rewrite (v2_loop E m Hm _ d0 (readdir E d0)); try done. apply HE.
Qed.

Lemma run_v2_absent E :
  rename_images_v2 E None = Traceback (OSError enoent) (boot None).
Proof. reflexivity. Qed.

Lemma run_v3 E d0 :
  readdir_ok E →
  rename_images_v3 E (Some d0) =
    Exit0 {| fs := Some (after V3 E d0); g_mapping := mapping;
             stdout := ["Done"]; log := reported V3 E d0 |}.
Proof.
  intros HE. unfold rename_images_v3, after, walked, reported.
  generalize mapping_ok. generalize mapping. intros m Hm.
  cbn [os_listdir fs boot set_mapping open_log]. f_equal.
  rewrite (v3_loop E m Hm _ d0 (readdir E d0)); try done. apply HE.
Qed.

Lemma run_v3_absent E :
  rename_images_v3 E None =
    Exit0 {| fs := None; g_mapping := mapping; stdout := ["Done"];
             log := [msg_global enoent +:+ nl] |}.
Proof. reflexivity. Qed.

(** v1 cannot end in a traceback. *)
Lemma run_v1_final E o : run V1 E o = Exit0 (final (run V1 E o)).
Proof. unfold run, rename_images. cbn [final]. reflexivity. Qed.

(** Every version, on a directory that exists. *)
Lemma run_spec ver E d0 :
  readdir_ok E →
  ∃ st, run ver E (Some d0) = Exit0 st ∧ fs st = Some (after ver E d0) ∧
        g_mapping st = mapping ∧ report ver st = reported ver E d0.
Proof.
  intros HE. destruct ver; simpl.
  - rewrite run_v1. eauto.
  - rewrite run_v2 by done. eauto.
  - rewrite run_v3 by done. eauto.
Qed.

Lemma walked_nodup ver E d0 : readdir_ok E → NoDup (walked ver E d0).
Proof. intros HE. destruct ver; unfold walked; try apply HE. apply mapping_ok. Qed.

(** A source that can be renamed is among the names every version walks. *)
Lemma walked_ok ver E d0 k v :
  readdir_ok E → dict_get k mapping = Some v → rename_ok E d0 k v = true →
  k ∈ walked ver E d0.
Proof.
  intros HE Hg Hok. destruct ver; unfold walked.
  - by eapply elem_keys, dict_get_Some.
  - apply HE. eapply rename_err_present. by apply bool_decide_eq_true in Hok.
  - apply HE. eapply rename_err_present. by apply bool_decide_eq_true in Hok.
Qed.

Lemma after_lookup ver E d0 f :
  readdir_ok E → after ver E d0 !! f = landed E d0 f.
Proof.
  intros HE. unfold after.
  rewrite (fold_attempt_lookup E mapping mapping_ok) by by apply walked_nodup.
  unfold moved, landed.
  destruct (dict_get f mapping) as [v|] eqn:Hg.
  - destruct (rename_ok E d0 f v) eqn:Hok; [|by rewrite andb_false_r].
    by rewrite bool_decide_true by by eapply walked_ok.
  - destruct (dict_rget f mapping) as [k|] eqn:Hr; [|done].
    destruct (rename_ok E d0 k f) eqn:Hok; [|by rewrite andb_false_r].
    rewrite bool_decide_true; [done|].
    eapply walked_ok; [done| |done]. by apply (rget_get mapping mapping_ok).
Qed.

(** ** Text records *)

Lemma append_nil (s : string) : "" +:+ s = s.
Proof. reflexivity. Qed.

Lemma append_cons c (a s : string) : String c a +:+ s = String c (a +:+ s).
Proof. reflexivity. Qed.

Lemma prefix_nil s : String.prefix "" s = true.
Proof. by destruct s. Qed.

Lemma prefix_app p s : String.prefix p (p +:+ s) = true.
Proof.
  induction p as [|c p IH]; [apply prefix_nil|].
  rewrite append_cons. cbn [String.prefix]. by destruct (Ascii.ascii_dec c c).
Qed.

Lemma append_assoc (a b c : string) : (a +:+ b) +:+ c = a +:+ (b +:+ c).
Proof.
  induction a as [|x a IH]; [done|]. rewrite !append_cons. by f_equal.
Qed.

Lemma contains_prefix k x : String.prefix k x = true → contains k x = true.
Proof. destruct x; cbn [contains]; by intros ->. Qed.

Lemma contains_here k s : contains k (k +:+ s) = true.
Proof. apply contains_prefix, prefix_app. Qed.

Lemma contains_app a k b : contains k (a +:+ k +:+ b) = true.
Proof.
  induction a as [|x a IH]; [rewrite append_nil; apply contains_here|].
  rewrite append_cons. cbn [contains]. rewrite IH.
  by destruct (String.prefix _ _).
Qed.



Lemma prefix_line ver p s : String.prefix p (line ver (p +:+ s)) = true.
Proof. destruct ver; unfold line; rewrite ?append_assoc; apply prefix_app. Qed.


Lemma not_found_kind ver k :
  let l := line ver (msg_not_found k) in
  is_not_found l = true ∧ is_renamed l = false ∧ is_error l = false ∧
  is_skipped l = false.
Proof. repeat split; try by destruct ver. apply prefix_line. Qed.

Lemma skipped_kind ver f :
  let l := line ver (msg_skipped f) in
  is_skipped l = true ∧ is_renamed l = false ∧ is_error l = false ∧
  is_not_found l = false.
Proof. repeat split; try by destruct ver. apply prefix_line. Qed.

(** ** The directory after a pass *)



Section landed.
Context (E : os_env) (d0 : dir).

Lemma landed_source k v :
  dict_get k mapping = Some v →
  landed E d0 k = if rename_ok E d0 k v then None else d0 !! k.
Proof. unfold landed. by intros ->. Qed.

Lemma landed_dest k v :
  dict_get k mapping = Some v →
  landed E d0 v = if rename_ok E d0 k v then d0 !! k else d0 !! v.
Proof.
  intros Hg. unfold landed.
  by rewrite (val_not_key _ mapping_ok k v Hg), (get_rget _ mapping_ok k v Hg).
Qed.

(** A name that is not a key keeps its file unless a rename lands on it. *)
Lemma landed_bystander f :
  dict_get f mapping = None →
  (∀ k, (k, f) ∈ mapping → rename_ok E d0 k f = false) →
  landed E d0 f = d0 !! f.
Proof.
  intros Hg Hno. unfold landed. rewrite Hg.
  destruct (dict_rget f mapping) as [k|] eqn:Hr; [|done].
  by rewrite (Hno k (dict_rget_Some _ _ _ Hr)).
Qed.
End landed.

(** ** The report of a pass *)





(** The permissive environment lists a directory properly. *)
Lemma env0_ok p : readdir_ok (env0 p).
Proof.
  intros d. split.
  - apply NoDup_fst_map_to_list.
  - intros f. simpl. rewrite list_elem_of_fmap. split.
    + intros [[k c] [-> Hkc%elem_of_map_to_list]]. eauto.
    + intros [c Hc]. exists (f, c). by rewrite elem_of_map_to_list.
Qed.

(** * The properties *)

(** An environment whose OS refuses to rename the cat picture. *)
Definition env_refusing : os_env :=
  {| plat := Posix;
     locked := {[cat := "[Errno 13] Permission denied"]};
     readdir := λ d, (map_to_list d).*1;
     repr := λ fs, String.concat ", " fs |}.

(** The entry [k -> v] went through: the source name is gone and the
    destination name holds the file the source name held. *)
Definition source_moved (d0 d' : dir) (k v : string) : Prop :=
  d' !! k = None ∧ d' !! v = d0 !! k.

(** ** C1 *)

(** C1, as stated, fails: when the OS refuses the rename (here v1, a
    directory holding only the cat picture, and an OS that denies
    permission), the source is in the directory before the pass and is
    still there under its old name after it. *)
Lemma C1_refused_rename_stays :
  let d0 : dir := {[cat := "meow"]} in
  (cat, cat_mascot) ∈ mapping ∧ d0 !! cat = Some "meow" ∧
  ∃ st, run V1 env_refusing (Some d0) = Exit0 st ∧ fs st = Some d0 ∧
        msg_error cat "[Errno 13] Permission denied" ∈ stdout st ∧
        ¬ source_moved d0 d0 cat cat_mascot.
Proof.
  split; [by apply (bool_decide_unpack _)|]. split; [done|].
  eexists. split; [vm_compute; reflexivity|].
  split; [vm_compute; reflexivity|]. split.
  - apply (bool_decide_unpack _). vm_compute. exact I.
  - intros [H _]. vm_compute in H. done.
Qed.

(** ** C2 *)

(** With a console and a log that take every record, v1 has nothing
    that can raise outside its [try], and v3 catches the listing error:
    both end normally. *)
Lemma v1_always_exits_0 E o : exit_status (run V1 E o) = 0.
Proof. reflexivity. Qed.

Lemma v3_always_exits_0 E o : exit_status (run V3 E o) = 0.
Proof. reflexivity. Qed.

(** C2 does not hold of v2: with no directory [images], [os.listdir]
    raises outside any [try], nothing was printed, and the process ends
    with a traceback and status 1. *)
Theorem C2_v2_absent_dir_traceback E :
  run V2 E None = Traceback (OSError enoent) (boot None) ∧
  exit_status (run V2 E None) = 1 ∧
  stdout (final (run V2 E None)) = [].
Proof. done. Qed.

(** ** C3 *)





(** ** A directory without sources *)


(** ** C5 *)










(** ** C6 *)




(** ** C8 *)



(** ** C9 *)

Lemma for_each_g_mapping {A} (body : A → pystate → pystate) xs st :
  (∀ x s, g_mapping (body x s) = g_mapping s) →
  g_mapping (for_each body xs st) = g_mapping st.
Proof.
  intros Hb. revert st. induction xs as [|x xs IH]; intros st; simpl; [done|].
  by rewrite IH, Hb.
Qed.

Lemma v1_body_g_mapping E e st : g_mapping (v1_body E e st) = g_mapping st.
Proof.
  destruct e as [k v]. unfold v1_body.
  destruct (os_path_exists (fs st) k); [|done].
  by destruct (os_rename E k v (fs st)).
Qed.

Lemma v2_body_g_mapping E f st : g_mapping (v2_body E f st) = g_mapping st.
Proof.
  unfold v2_body. destruct (dict_get f (g_mapping st)) as [v|].
  - by destruct (os_rename E f v (fs st)).
  - by rewrite v2_loose_match_noop.
Qed.

Lemma v3_body_g_mapping E f st : g_mapping (v3_body E f st) = g_mapping st.
Proof.
  unfold v3_body. destruct (dict_get f (g_mapping st)) as [v|]; [|done].
  by destruct (os_rename E f v (fs st)).
Qed.

(** C9: the table has exactly ten entries, its destination names are
    pairwise distinct and each is a non-empty name over the portable
    ASCII file name characters, and no run changes it: a run that ends
    normally ends with the global [mapping] equal to the literal, and
    the one run that does not (v2 without a directory) stops before the
    table is bound, with the state untouched. *)
Theorem C9_table_is_fixed :
  length mapping = 10 ∧ NoDup mapping.*2 ∧
  Forall (λ v, ascii_safe v = true ∧ is_ascii v = true) mapping.*2 ∧
  ∀ ver E o,
    match run ver E o with
    | Exit0 st => g_mapping st = mapping
    | Traceback _ st => st = boot o
    end.
Proof.
  split; [done|]. split; [apply mapping_ok|].
  split; [by apply (bool_decide_unpack _)|].
  intros ver E o. destruct ver; unfold run.
  - unfold rename_images. cbv zeta.
    by rewrite for_each_g_mapping by apply v1_body_g_mapping.
  - unfold rename_images_v2. cbv zeta. destruct o as [d|]; simpl; [|done].
    by rewrite for_each_g_mapping by apply v2_body_g_mapping.
  - unfold rename_images_v3. cbv zeta. destruct o as [d|]; simpl; [|done].
    by rewrite for_each_g_mapping by apply v3_body_g_mapping.
Qed.

(** ** C10 *)




(** * More of the scripts *)

(** ** [k in filename] *)

Lemma prefix_inv k s : String.prefix k s = true → ∃ b, s = k +:+ b.
Proof.
  revert s. induction k as [|c k IH]; intros s; [by exists s|].
  destruct s as [|c' s]; [done|]. cbn [String.prefix].
  destruct (Ascii.ascii_dec c c') as [->|]; [|done].
  intros [b ->]%IH. by exists b.
Qed.

(** X1: the test [k in filename] of v2's loose match holds exactly when
    the key occurs in the file name as a substring. *)
Theorem X1_contains_is_substring k s :
  contains k s = true ↔ ∃ a b, s = a +:+ k +:+ b.
Proof.
  split; [|intros (a & b & ->); apply contains_app].
  induction s as [|c s IH]; cbn [contains].
  - destruct (String.prefix k "") eqn:Hp; [|done].
    apply prefix_inv in Hp as [b Hb]. by exists "", b.
  - destruct (String.prefix k (String c s)) eqn:Hp.
    + apply prefix_inv in Hp as [b Hb]. by exists "", b.
    + intros (a & b & ->)%IH. by exists (String c a), b.
Qed.

(** ** What a pass can and cannot do to the files *)

(** X8: a pass invents nothing: every file in the directory after a run
    was in it before the run with the same contents, under the same
    name or under the source name the table maps to it. *)
Theorem X8_nothing_is_invented ver E d0 :
  readdir_ok E →
  ∃ st d', run ver E (Some d0) = Exit0 st ∧ fs st = Some d' ∧
    ∀ f c, d' !! f = Some c →
      d0 !! f = Some c ∨ ∃ k, (k, f) ∈ mapping ∧ d0 !! k = Some c.
Proof.
  intros HE.
  destruct (run_spec ver E d0 HE) as (st & Hrun & Hfs & _).
  exists st, (after ver E d0). split; [done|]. split; [done|].
  intros f c. rewrite after_lookup by done. unfold landed.
  destruct (dict_get f mapping) as [v|] eqn:Hg.
  - destruct (rename_ok E d0 f v); [done|auto].
  - destruct (dict_rget f mapping) as [k|] eqn:Hr; [|auto].
    destruct (rename_ok E d0 k f); [|auto].
    intros Hk. right. exists k. split; [|done]. by apply dict_rget_Some.
Qed.

Lemma X8_nothing_is_invented_witness :
  ∃ st d', run V3 (env0 Posix) (Some {[cat := "A"; cat_mascot := "B"]})
           = Exit0 st ∧ fs st = Some d' ∧
    ∀ f c, d' !! f = Some c →
      ({[cat := "A"; cat_mascot := "B"]} : dir) !! f = Some c ∨
      ∃ k, (k, f) ∈ mapping ∧
           ({[cat := "A"; cat_mascot := "B"]} : dir) !! k = Some c.
Proof.
  apply (X8_nothing_is_invented V3 (env0 Posix)
           {[cat := "A"; cat_mascot := "B"]}), env0_ok.
Defined.

Lemma windows_keeps_destination E d k v :
  plat E = Windows → is_Some (d !! v) → rename_ok E d k v = false.
Proof.
  intros Hp [c Hv]. apply bool_decide_eq_false.
  unfold rename_err, os_rename. rewrite Hp, Hv.
  destruct (d !! k); [|done]. by destruct (locked E !! k).
Qed.

(** X9: where [os.rename] refuses to replace an existing file (Windows),
    a pass loses nothing: every file that was in the directory is still
    there with its contents, under its old name, or, when it was a
    source that was renamed, under its destination name. *)
Theorem X9_windows_loses_nothing ver E d0 :
  readdir_ok E → plat E = Windows →
  ∃ st d', run ver E (Some d0) = Exit0 st ∧ fs st = Some d' ∧
    ∀ f c, d0 !! f = Some c →
      d' !! f = Some c ∨
      ∃ v, (f, v) ∈ mapping ∧ d' !! f = None ∧ d' !! v = Some c.
Proof.
  intros HE Hp.
  destruct (run_spec ver E d0 HE) as (st & Hrun & Hfs & _).
  exists st, (after ver E d0). split; [done|]. split; [done|].
  intros f c Hf. rewrite !after_lookup by done.
  destruct (dict_get f mapping) as [v|] eqn:Hg.
  - rewrite (landed_source E d0 f v Hg).
    destruct (rename_ok E d0 f v) eqn:Hok; [|auto].
    right. exists v. split; [by apply dict_get_Some|]. split; [done|].
    by rewrite after_lookup, (landed_dest E d0 f v Hg), Hok.
  - left. rewrite landed_bystander; [done..|].
    intros k _. apply windows_keeps_destination; eauto.
Qed.

Lemma X9_windows_loses_nothing_witness :
  ∃ st d', run V1 (env0 Windows) (Some {[cat := "A"; cat_mascot := "B"]})
           = Exit0 st ∧ fs st = Some d' ∧
    ∀ f c, ({[cat := "A"; cat_mascot := "B"]} : dir) !! f = Some c →
      d' !! f = Some c ∨
      ∃ v, (f, v) ∈ mapping ∧ d' !! f = None ∧ d' !! v = Some c.
Proof.
  apply (X9_windows_loses_nothing V1 (env0 Windows)
           {[cat := "A"; cat_mascot := "B"]}).
  - apply env0_ok.
  - reflexivity.
Defined.


(** * The scripts on a real directory

    The development above runs the scripts on a directory of regular
    files, each under one name that the file system keeps byte for byte,
    with a console and a log file that take every record. This part runs
    them on what a directory can hold and what the surroundings can do:
    - a name can be a regular file (with an inode of its own or shared
      with another name: hard links), a dangling symbolic link, or a
      subdirectory;
    - the file system can look a name up under a spelling of its own
      ([store]: a normal form, as HFS+ does, or a folded case, as NTFS
      and APFS do), and list it under yet another;
    - the directory can be there and still refuse to be listed or to be
      searched;
    - [os.rename] follows rename(2) on POSIX and MoveFile on Windows;
    - the console of v1 may have no way to encode the names of the table,
      the log file of v3 may refuse to be opened, and a listed name may
      hold bytes that are not UTF-8, which the log cannot take.

    What stays outside: symbolic links that resolve, and dangling links
    whose target is a name in the base directory (a rename of the pass
    could bring them to life); other processes at work in the directory
    during a run; writes that fail for want of space. *)

Module Full.

(** ** Directory *)

Inductive node :=
  | Regular (ino : N) (data : content)
      (** a regular file, no link: inode number and bytes *)
  | Broken
      (** a symbolic link to nothing, whose target is not a name of the
          base directory *)
  | Folder (empty : bool).
      (** a subdirectory *)

#[global] Instance node_eq_dec : EqDecision node.
Proof. solve_decision. Defined.

Abbreviation tree := (gmap string node).

Inductive errno :=
  | ENOENT | EEXIST | EISDIR | ENOTDIR | ENOTEMPTY | EACCES
  | Other (code : N).

(** A Python exception; [str e] is what [f"{e}"] shows. *)
Inductive exn :=
  | OSError (text : string)
  | UnicodeEncodeError (text : string).

Definition str (e : exn) : string :=
  match e with OSError text | UnicodeEncodeError text => text end.

Record host := {
  plat : platform;
  (** stored names the OS refuses to rename, with the error it gives *)
  locked : gmap string errno;
  (** the spelling under which the file system keeps a name *)
  store : string → string;
  (** whether the directory, when it is there, can be listed (read
      permission) and whether names can be looked up in it (search
      permission) *)
  listable : bool;
  searchable : bool;
  (** the order in which [os.listdir] reports the names of a directory *)
  readdir : tree → list string;
  (** Python's [repr] of a list of strings *)
  repr : list string → string;
  (** the text of the [OSError] of [os.rename], from the error and the
      two names as the script wrote them *)
  strerror : errno → string → string → string;
  (** the text of the [OSError] of [os.listdir], for a directory that
      is not there ([false]) and for one that cannot be read ([true]) *)
  listdir_error : bool → string;
  (** the text of the [OSError] of [open] *)
  log_error : string;
  (** the text of the [UnicodeEncodeError] for a record *)
  encode_error : string → string;
  (** whether the console, as the process finds it, can encode Hangul *)
  console_ok : bool;
  (** whether [rename_log.txt] can be opened for writing *)
  log_ok : bool
}.

(** [os.listdir] reports a name once, and only names of the directory.
    It may spell a name in another way than the file system looks it up:
    a file system that ignores case lists [Cat.png] and finds it as
    [cat.png]. *)
Definition readdir_ok (H : host) : Prop :=
  ∀ t : tree, NoDup (readdir H t) ∧
              ∀ f, f ∈ readdir H t → is_Some (t !! store H f).

(** The file system keeps the names of the table as the table spells
    them. *)
Definition spelled (H : host) : Prop :=
  ∀ k v, (k, v) ∈ mapping → store H k = k ∧ store H v = v.

(** ** Text that UTF-8 can encode

    A file name is a string of bytes. Python turns the bytes that are
    not UTF-8 into lone surrogates, and a text with a lone surrogate
    cannot be written to a UTF-8 file. *)

Definition byte_in (lo hi : N) (a : Ascii.ascii) : bool :=
  let b := Ascii.N_of_ascii a in ((lo <=? b) && (b <=? hi))%N.

Definition cont : Ascii.ascii → bool := byte_in 128 191.

Fixpoint encodable (s : string) : bool :=
  match s with
  | EmptyString => true
  | String a r =>
    if byte_in 0 127 a then encodable r
    else if byte_in 194 223 a then
      match r with
      | String c1 r1 => cont c1 && encodable r1
      | _ => false
      end
    else if byte_in 224 239 a then
      match r with
      | String c1 (String c2 r2) =>
        (if byte_in 224 224 a then byte_in 160 191 c1
         else if byte_in 237 237 a then byte_in 128 159 c1
         else cont c1)
        && cont c2 && encodable r2
      | _ => false
      end
    else if byte_in 240 244 a then
      match r with
      | String c1 (String c2 (String c3 r3)) =>
        (if byte_in 240 240 a then byte_in 144 191 c1
         else if byte_in 244 244 a then byte_in 128 143 c1
         else cont c1)
        && cont c2 && cont c3 && encodable r3
      | _ => false
      end
    else false
  end.

(** ** The primitives *)

(** [os.path.exists(os.path.join(base_dir, name))]: false when the
    name cannot be looked up; follows symbolic links, so a broken one
    does not exist. *)
Definition os_path_exists (H : host) (o : option tree) (name : string) : bool :=
  match o with
  | Some t =>
    searchable H &&
    match t !! store H name with
    | Some Broken => false
    | Some _ => true
    | None => false
    end
  | None => false
  end.

(** [os.listdir(base_dir)] *)
Definition os_listdir (H : host) (o : option tree) : exn + list string :=
  match o with
  | Some t =>
    if listable H then inr (readdir H t)
    else inl (OSError (listdir_error H true))
  | None => inl (OSError (listdir_error H false))
  end.

(** Two names of one file. *)
Definition same_file (src dst : node) : bool :=
  match src, dst with
  | Regular i _, Regular j _ => bool_decide (i = j)
  | _, _ => false
  end.

(** What stands in the way when the destination is there. *)
Definition clash (p : platform) (src dst : node) : option errno :=
  match p with
  | Windows => Some EEXIST
  | Posix =>
    match src, dst with
    | Folder _, Folder true => None
    | Folder _, Folder false => Some ENOTEMPTY
    | Folder _, _ => Some ENOTDIR
    | _, Folder _ => Some EISDIR
    | _, _ => None
    end
  end.

(** The rename on stored names: the new directory, or the error. *)
Definition rename_at (H : host) (old new : string) (t : tree) : errno + tree :=
  if negb (searchable H) then inl EACCES else
  match t !! old with
  | None => inl ENOENT
  | Some src =>
    match locked H !! old with
    | Some e => inl e
    | None =>
      match t !! new with
      | None => inr (<[new := src]> (delete old t))
      | Some dst =>
        if decide (old = new) then inr t
        else
          match plat H, same_file src dst with
          | Posix, true => inr t
          | _, _ =>
            match clash (plat H) src dst with
            | Some e => inl e
            | None => inr (<[new := src]> (delete old t))
            end
          end
      end
    end
  end.

(** [os.rename(os.path.join(base_dir, old), os.path.join(base_dir, new))] *)
Definition os_rename (H : host) (old new : string) (o : option tree)
  : exn + tree :=
  match o with
  | None => inl (OSError (strerror H ENOENT old new))
  | Some t =>
    match rename_at H (store H old) (store H new) t with
    | inl e => inl (OSError (strerror H e old new))
    | inr t' => inr t'
    end
  end.

(** ** Interpreter state *)

Record pystate := {
  fs : option tree;
  g_mapping : list (string * string);
  stdout : list string;
  log : list string
}.

Definition boot (o : option tree) : pystate :=
  {| fs := o; g_mapping := []; stdout := []; log := [] |}.

Definition set_fs (t : tree) (st : pystate) : pystate :=
  {| fs := Some t; g_mapping := g_mapping st;
     stdout := stdout st; log := log st |}.

Definition set_mapping (m : list (string * string)) (st : pystate) : pystate :=
  {| fs := fs st; g_mapping := m; stdout := stdout st; log := log st |}.

(** A statement leaves a state and may raise. *)
Definition outcome : Type := pystate * option exn.

(** [print] of text that any console takes, or on a console set to
    UTF-8 ([sys.stdout.reconfigure(encoding='utf-8')], v2). *)
Definition put (s : string) (st : pystate) : pystate :=
  {| fs := fs st; g_mapping := g_mapping st;
     stdout := stdout st ++ [s]; log := log st |}.

(** [print] of a record that names a source of the table, on the console
    as the process finds it (v1). *)
Definition print (H : host) (s : string) (st : pystate) : outcome :=
  if console_ok H then (put s st, None)
  else (st, Some (UnicodeEncodeError (encode_error H s))).

(** [log.write] of a record that UTF-8 can encode. *)
Definition log_write (s : string) (st : pystate) : pystate :=
  {| fs := fs st; g_mapping := g_mapping st;
     stdout := stdout st; log := log st ++ [s] |}.

(** [log.write] of a record that holds a listed name. *)
Definition log_write_name (H : host) (name s : string) (st : pystate)
  : outcome :=
  if encodable name then (log_write s st, None)
  else (st, Some (UnicodeEncodeError (encode_error H s))).

Definition open_log (st : pystate) : pystate :=
  {| fs := fs st; g_mapping := g_mapping st; stdout := stdout st; log := [] |}.

Inductive result :=
  | Exit0 (st : pystate)
  | Traceback (e : exn) (st : pystate).

Definition exit_status (r : result) : nat :=
  match r with Exit0 _ => 0 | Traceback _ _ => 1 end.

Definition final (r : result) : pystate :=
  match r with Exit0 st => st | Traceback _ st => st end.

(** [for x in xs: body], left at the first exception. *)
Fixpoint for_each {A} (body : A → pystate → outcome) (xs : list A)
  (st : pystate) : outcome :=
  match xs with
  | [] => (st, None)
  | x :: xs' =>
    match body x st with
    | (st', None) => for_each body xs' st'
    | (st', Some e) => (st', Some e)
    end
  end.

(** ** rename_images.py *)

Definition v1_body (H : host) (entry : string * string) (st : pystate)
  : outcome :=
  let '(old_name, new_name) := entry in
  if os_path_exists H (fs st) old_name then
    match os_rename H old_name new_name (fs st) with
    | inr t' =>
      match print H (msg_renamed old_name new_name) (set_fs t' st) with
      | (st', None) => (st', None)
      | (st', Some e) => print H (msg_error old_name (str e)) st'
      end
    | inl e => print H (msg_error old_name (str e)) st
    end
  else print H (msg_not_found old_name) st.

Definition rename_images (H : host) (o : option tree) : result :=
  let st := set_mapping mapping (boot o) in
  match for_each (v1_body H) (g_mapping st) st with
  | (st', None) => Exit0 st'
  | (st', Some e) => Traceback e st'
  end.

(** ** rename_images_v2.py *)

Definition v2_loose_match (filename : string) (st : pystate) : pystate :=
  fst (for_each (λ '(k, v) st', if contains k filename then (st', None)
                                else (st', None))
                (g_mapping st) st).

Definition v2_body (H : host) (filename : string) (st : pystate) : outcome :=
  match dict_get filename (g_mapping st) with
  | Some new_name =>
    match os_rename H filename new_name (fs st) with
    | inr t' => (put (msg_renamed filename new_name) (set_fs t' st), None)
    | inl e => (put (msg_error filename (str e)) st, None)
    end
  | None => (v2_loose_match filename st, None)
  end.

Definition rename_images_v2 (H : host) (o : option tree) : result :=
  let st := boot o in
  match os_listdir H (fs st) with
  | inl e => Traceback e st
  | inr files =>
    let st := put ("Files in " +:+ base_dir +:+ ": " +:+ repr H files) st in
    let st := set_mapping mapping st in
    match for_each (v2_body H) files st with
    | (st', None) => Exit0 st'
    | (st', Some e) => Traceback e st'
    end
  end.

(** ** rename_images_v3.py *)

Definition v3_body (H : host) (filename : string) (st : pystate) : outcome :=
  match dict_get filename (g_mapping st) with
  | Some new_name =>
    match os_rename H filename new_name (fs st) with
    | inr t' =>
      (log_write (msg_renamed filename new_name +:+ nl) (set_fs t' st), None)
    | inl e => (log_write (msg_error filename (str e) +:+ nl) st, None)
    end
  | None => log_write_name H filename (msg_skipped filename +:+ nl) st
  end.

Definition rename_images_v3 (H : host) (o : option tree) : result :=
  let st := set_mapping mapping (boot o) in
  if log_ok H then
    let st := open_log st in
    let st :=
      match os_listdir H (fs st) with
      | inr files =>
        let st := log_write ("Files found: " +:+ repr H files +:+ nl) st in
        match for_each (v3_body H) files st with
        | (st', None) => st'
        | (st', Some e) => log_write (msg_global (str e) +:+ nl) st'
        end
      | inl e => log_write (msg_global (str e) +:+ nl) st
      end in
    Exit0 (put "Done" st)
  else Traceback (OSError (log_error H)) st.

Definition run (ver : version) : host → option tree → result :=
  match ver with
  | V1 => rename_images
  | V2 => rename_images_v2
  | V3 => rename_images_v3
  end.

Definition report (ver : version) (st : pystate) : list string :=
  match ver with V3 => log st | _ => stdout st end.

Definition is_global (l : string) : bool := String.prefix "Global error: " l.

(** A host of the plain kind, for running the scripts on examples:
    nothing refused, names kept and listed as they are. *)
Definition errtext (e : errno) : string :=
  match e with
  | ENOENT => "[Errno 2] No such file or directory"
  | EEXIST => "[WinError 183] Cannot create a file when that file already exists"
  | EISDIR => "[Errno 21] Is a directory"
  | ENOTDIR => "[Errno 20] Not a directory"
  | ENOTEMPTY => "[Errno 39] Directory not empty"
  | EACCES => "[Errno 13] Permission denied"
  | Other _ => "[Errno 1] Operation not permitted"
  end.

Definition quoted (s : string) : string := "'" +:+ s +:+ "'".

Definition host0 (p : platform) : host :=
  {| plat := p; locked := ∅; store := λ n, n; listable := true;
     searchable := true;
     readdir := λ t, (map_to_list t).*1;
     repr := λ fs, "[" +:+ String.concat ", " (quoted <$> fs) +:+ "]";
     strerror := λ e old new,
       errtext e +:+ ": " +:+ quoted (base_dir +:+ "/" +:+ old) +:+ " -> "
       +:+ quoted (base_dir +:+ "/" +:+ new);
     listdir_error := λ there,
       errtext (if there then EACCES else ENOENT) +:+ ": " +:+ quoted base_dir;
     log_error := errtext EACCES +:+ ": " +:+ quoted "rename_log.txt";
     encode_error := λ _,
       "'utf-8' codec can't encode characters: surrogates not allowed";
     console_ok := true; log_ok := true |}.

(** ** One rename, judged on the two names *)

(** What [os.rename] does, read off the source and destination names. *)
Inductive verdict :=
  | Raises (e : errno)
  | Stays                  (** returns normally and changes nothing *)
  | Moves (src : node).

Definition judge (H : host) (old new : string) (s d : option node) : verdict :=
  if negb (searchable H) then Raises EACCES else
  match s with
  | None => Raises ENOENT
  | Some src =>
    match locked H !! old with
    | Some e => Raises e
    | None =>
      match d with
      | None => Moves src
      | Some dst =>
        if decide (old = new) then Stays
        else
          match plat H, same_file src dst with
          | Posix, true => Stays
          | _, _ =>
            match clash (plat H) src dst with
            | Some e => Raises e
            | None => Moves src
            end
          end
      end
    end
  end.

(** What happens to an entry of the table: v1 probes first ([probe]),
    v2 and v3 go straight to the rename. *)
Inductive fate :=
  | Absent                 (** [os.path.exists] said no *)
  | Raised (e : errno)
  | Stayed
  | Moved (src : node).

Definition exists_at (H : host) (t : tree) (name : string) : bool :=
  searchable H &&
  match t !! name with
  | Some Broken => false
  | Some _ => true
  | None => false
  end.

Definition fate_of (probe : bool) (H : host) (t : tree) (k v : string) : fate :=
  if probe && negb (exists_at H t k) then Absent
  else match judge H k v (t !! k) (t !! v) with
       | Raises e => Raised e
       | Stays => Stayed
       | Moves src => Moved src
       end.

Definition is_moved (x : fate) : bool :=
  match x with Moved _ => true | _ => false end.

(** One step of a pass seen from the directory alone. *)
Definition try_at (probe : bool) (H : host) (m : list (string * string))
  (t : tree) (f : string) : tree :=
  match dict_get f m with
  | Some v =>
    match fate_of probe H t f v with
    | Moved src => <[v := src]> (delete f t)
    | _ => t
    end
  | None => t
  end.

(** The name [f] after the names [ks] were gone through, read off the
    directory [t0] the pass started from. *)
Definition lands (probe : bool) (H : host) (m : list (string * string))
  (t0 : tree) (ks : list string) (f : string) : option node :=
  match dict_get f m with
  | Some v =>
    if bool_decide (f ∈ ks) && is_moved (fate_of probe H t0 f v) then None
    else t0 !! f
  | None =>
    match dict_rget f m with
    | Some k =>
      if bool_decide (k ∈ ks) && is_moved (fate_of probe H t0 k f)
      then t0 !! k else t0 !! f
    | None => t0 !! f
    end
  end.

(** The record for an entry. *)
Definition tells (probe : bool) (H : host) (t : tree) (k v : string) : string :=
  match fate_of probe H t k v with
  | Absent => msg_not_found k
  | Raised e => msg_error k (strerror H e k v)
  | Stayed | Moved _ => msg_renamed k v
  end.

Definition v2_tells (H : host) (m : list (string * string)) (t : tree)
  (f : string) : list string :=
  match dict_get f m with
  | Some v => [tells false H t f v]
  | None => []
  end.

Definition v3_tells (H : host) (m : list (string * string)) (t : tree)
  (f : string) : string :=
  match dict_get f m with
  | Some v => tells false H t f v +:+ nl
  | None => msg_skipped f +:+ nl
  end.

(** A listed name v3 gets past: a key, or a name the log can take. *)
Definition passable (m : list (string * string)) (f : string) : bool :=
  match dict_get f m with Some _ => true | None => encodable f end.

(** The names v3 reaches, and the name it stops at. *)
Fixpoint reach (m : list (string * string)) (files : list string)
  : list string :=
  match files with
  | [] => []
  | f :: files' => if passable m f then f :: reach m files' else []
  end.

Fixpoint stopper (m : list (string * string)) (files : list string)
  : option string :=
  match files with
  | [] => None
  | f :: files' => if passable m f then stopper m files' else Some f
  end.

Lemma rename_at_judge H old new t :
  rename_at H old new t =
    match judge H old new (t !! old) (t !! new) with
    | Raises e => inl e
    | Stays => inr t
    | Moves src => inr (<[new := src]> (delete old t))
    end.
Proof.
  unfold rename_at, judge. destruct (searchable H); [|done]. cbn [negb].
  destruct (t !! old) as [src|]; [|done].
  destruct (locked H !! old); [done|]. destruct (t !! new) as [dst|]; [|done].
  destruct (decide (old = new)); [done|].
  destruct (plat H), (same_file src dst); try done;
    by destruct (clash _ src dst).
Qed.

Lemma os_rename_judge H k v t :
  os_rename H k v (Some t) =
    match judge H (store H k) (store H v) (t !! store H k) (t !! store H v) with
    | Raises e => inl (OSError (strerror H e k v))
    | Stays => inr t
    | Moves src => inr (<[store H v := src]> (delete (store H k) t))
    end.
Proof.
  unfold os_rename. rewrite rename_at_judge. by destruct (judge _ _ _ _ _).
Qed.

(** [os.rename] does not raise: the verdict is no error. *)
Lemma no_raise_judge H k v t :
  (∀ e, os_rename H k v (Some t) ≠ inl e) →
  ∀ e, judge H (store H k) (store H v) (t !! store H k) (t !! store H v)
       ≠ Raises e.
Proof.
  intros Hren e Hj. apply (Hren (OSError (strerror H e k v))).
  by rewrite os_rename_judge, Hj.
Qed.

Lemma judge_moves_src H old new s d src :
  judge H old new s d = Moves src → s = Some src.
Proof.
  unfold judge. destruct (searchable H); [|done]. cbn [negb].
  destruct s as [x|]; [|done]. destruct (locked H !! old); [done|].
  destruct d as [dst|]; [|by intros [= ->]].
  destruct (decide (old = new)); [done|].
  destruct (plat H), (same_file x dst); try done;
    destruct (clash _ x dst); try done; by intros [= ->].
Qed.

Lemma fate_moved_src probe H t k v src :
  fate_of probe H t k v = Moved src → t !! k = Some src.
Proof.
  unfold fate_of. destruct (probe && negb (exists_at H t k)); [done|].
  destruct (judge H k v (t !! k) (t !! v)) eqn:Hj; try done.
  intros [= ->]. by eapply judge_moves_src.
Qed.

(** The fate of an entry depends on its two names only. *)
Lemma fate_stable probe H t t' k v :
  t !! k = t' !! k → t !! v = t' !! v →
  fate_of probe H t k v = fate_of probe H t' k v.
Proof. unfold fate_of, exists_at. by intros -> ->. Qed.

Lemma tells_stable probe H t t' k v :
  t !! k = t' !! k → t !! v = t' !! v →
  tells probe H t k v = tells probe H t' k v.
Proof. intros Hk Hv. unfold tells. by rewrite (fate_stable probe H t t' k v). Qed.

Lemma try_at_unmapped probe H m t f :
  dict_get f m = None → try_at probe H m t f = t.
Proof. unfold try_at. by intros ->. Qed.

Lemma try_at_lookup probe H m t f v x :
  dict_get f m = Some v → f ≠ v →
  try_at probe H m t f !! x =
    if is_moved (fate_of probe H t f v) then
      if decide (x = v) then t !! f
      else if decide (x = f) then None else t !! x
    else t !! x.
Proof.
  intros Hg Hne. unfold try_at. rewrite Hg.
  destruct (fate_of probe H t f v) as [|?| |src] eqn:Hf; try done.
  apply fate_moved_src in Hf. cbn [is_moved].
  destruct (decide (x = v)) as [->|Hxv].
  - by rewrite lookup_insert_eq.
  - rewrite lookup_insert_ne by done.
    destruct (decide (x = f)) as [->|Hxf].
    + by rewrite lookup_delete_eq.
    + by rewrite lookup_delete_ne.
Qed.

(** ** A whole pass, on the directory *)

Section pass.
Context (probe : bool) (H : host) (m : list (string * string)).
Context (Hm : table_ok m).

Lemma lands_key t0 ks f v :
  dict_get f m = Some v →
  lands probe H m t0 ks f =
    if bool_decide (f ∈ ks) && is_moved (fate_of probe H t0 f v) then None
    else t0 !! f.
Proof. unfold lands. by intros ->. Qed.

Lemma lands_val t0 ks k v :
  dict_get k m = Some v →
  lands probe H m t0 ks v =
    if bool_decide (k ∈ ks) && is_moved (fate_of probe H t0 k v)
    then t0 !! k else t0 !! v.
Proof.
  intros Hg. unfold lands.
  by rewrite (val_not_key m Hm k v Hg), (get_rget m Hm k v Hg).
Qed.

Lemma lands_snoc t0 ks k f :
  (f = k → dict_get k m = None) → dict_rget f m ≠ Some k →
  lands probe H m t0 (ks ++ [k]) f = lands probe H m t0 ks f.
Proof.
  intros Hne Hr. unfold lands.
  assert (∀ y, y ≠ k → bool_decide (y ∈ ks ++ [k]) = bool_decide (y ∈ ks))
    as Hin.
  { intros y Hy. apply bool_decide_ext.
    rewrite elem_of_app, list_elem_of_singleton. tauto. }
  destruct (dict_get f m) as [v|] eqn:Hg.
  - rewrite Hin; [done|]. intros ->. specialize (Hne eq_refl). congruence.
  - destruct (dict_rget f m) as [k'|]; [|done].
    rewrite Hin; [done|congruence].
Qed.

(** Whatever the order, going through the names [ks] leaves each name
    as [lands] says. *)
Lemma fold_try_lookup t0 ks f :
  NoDup ks → foldl (try_at probe H m) t0 ks !! f = lands probe H m t0 ks f.
Proof.
  revert f. induction ks as [|x ks IH] using rev_ind; intros f Hnd.
  - simpl. unfold lands.
    destruct (dict_get f m); [done|]. by destruct (dict_rget f m).
  - apply NoDup_app in Hnd as (Hnd & Hx & _).
    assert (x ∉ ks) as Hxks.
    { intros Hin. apply (Hx x Hin). left. }
    rewrite foldl_snoc. set (t := foldl (try_at probe H m) t0 ks).
    destruct (dict_get x m) as [v|] eqn:Hg.
    + pose proof (key_ne_val m Hm x v Hg) as Hxv.
      assert (t !! x = t0 !! x) as Htx.
      { unfold t. rewrite IH, (lands_key t0 ks x v Hg) by done.
        by rewrite bool_decide_false. }
      assert (t !! v = t0 !! v) as Htv.
      { unfold t. rewrite IH, (lands_val t0 ks x v Hg) by done.
        by rewrite bool_decide_false. }
      rewrite (try_at_lookup probe H m t x v f Hg Hxv).
      rewrite (fate_stable probe H t t0 x v Htx Htv).
      destruct (decide (f = v)) as [->|Hfv].
      * rewrite (lands_val t0 _ x v Hg).
        rewrite bool_decide_true by (apply elem_of_app; right; left).
        simpl. by destruct (is_moved _).
      * destruct (decide (f = x)) as [->|Hfx].
        -- rewrite (lands_key t0 _ x v Hg).
           rewrite bool_decide_true by (apply elem_of_app; right; left).
           simpl. by destruct (is_moved _).
        -- rewrite lands_snoc; [|done|].
           ++ unfold t. rewrite IH by done. by destruct (is_moved _).
           ++ intros Hr%(rget_get m Hm). congruence.
    + rewrite try_at_unmapped by done. unfold t. rewrite IH by done.
      symmetry. apply lands_snoc; [done|].
      intros Hr%(rget_get m Hm). congruence.
Qed.

(** A name not yet reached is as the pass found it, and so is its
    destination. *)
Lemma fold_try_fresh t0 ks x v :
  NoDup ks → x ∉ ks → dict_get x m = Some v →
  foldl (try_at probe H m) t0 ks !! x = t0 !! x ∧
  foldl (try_at probe H m) t0 ks !! v = t0 !! v.
Proof.
  intros Hnd Hx Hg. rewrite !fold_try_lookup by done.
  rewrite (lands_key t0 ks x v Hg), (lands_val t0 ks x v Hg).
  by rewrite bool_decide_false.
Qed.
End pass.

(** ** The loop bodies, one step *)

Lemma for_each_app {A} (body : A → pystate → outcome) xs ys st :
  for_each body (xs ++ ys) st =
    match for_each body xs st with
    | (st', None) => for_each body ys st'
    | (st', Some e) => (st', Some e)
    end.
Proof.
  revert st. induction xs as [|x xs IH]; intros st; simpl; [done|].
  destruct (body x st) as [st' [e|]]; [done|apply IH].
Qed.

Lemma each_snoc {A} (body : A → pystate → outcome) xs x st :
  for_each body (xs ++ [x]) st =
    match for_each body xs st with
    | (st', None) => body x st'
    | (st', Some e) => (st', Some e)
    end.
Proof.
  rewrite for_each_app. destruct (for_each body xs st) as [st' [e|]]; [done|].
  simpl. by destruct (body x st') as [st'' [e|]].
Qed.

(** v2's loose match never changes anything. *)
Lemma loose_match_noop filename st : v2_loose_match filename st = st.
Proof.
  unfold v2_loose_match.
  induction (g_mapping st) as [|[k v] l IH]; simpl; [done|].
  by destruct (contains k filename).
Qed.

Section bodies.
Context (H : host) (m : list (string * string)).
Context (Hsp : ∀ k v, (k, v) ∈ m → store H k = k ∧ store H v = v).

Lemma v1_step st t k v :
  console_ok H = true → fs st = Some t → dict_get k m = Some v →
  v1_body H (k, v) st =
    ({| fs := Some (try_at true H m t k); g_mapping := g_mapping st;
        stdout := stdout st ++ [tells true H t k v]; log := log st |}, None).
Proof.
  intros Hc Hfs Hg.
  destruct (Hsp k v (dict_get_Some _ _ _ Hg)) as [Hk Hv].
  unfold v1_body, os_path_exists, os_rename, try_at, tells, fate_of, print.
  rewrite Hfs, Hg, Hk, Hv, Hc, rename_at_judge. fold (exists_at H t k).
  destruct (exists_at H t k); cbn [andb negb].
  - destruct (judge H k v (t !! k) (t !! v));
      destruct st; simpl in *; by subst.
  - destruct st; simpl in *; by subst.
Qed.

Lemma v2_step st t f :
  fs st = Some t → g_mapping st = m →
  v2_body H f st =
    ({| fs := Some (try_at false H m t f); g_mapping := m;
        stdout := stdout st ++ v2_tells H m t f; log := log st |}, None).
Proof.
  intros Hfs Hgm. unfold v2_body, os_rename, try_at, v2_tells, tells, fate_of.
  rewrite Hfs, Hgm. destruct (dict_get f m) as [v|] eqn:Hg.
  - destruct (Hsp f v (dict_get_Some _ _ _ Hg)) as [Hk Hv].
    rewrite Hk, Hv, rename_at_judge. cbn [andb].
    destruct (judge H f v (t !! f) (t !! v));
      destruct st; simpl in *; by subst.
  - rewrite loose_match_noop, app_nil_r. destruct st; simpl in *; by subst.
Qed.

Lemma v3_step st t f :
  fs st = Some t → g_mapping st = m → passable m f = true →
  v3_body H f st =
    ({| fs := Some (try_at false H m t f); g_mapping := m;
        stdout := stdout st; log := log st ++ [v3_tells H m t f] |}, None).
Proof.
  intros Hfs Hgm Hp. unfold v3_body, os_rename, try_at, v3_tells, tells, fate_of.
  unfold passable in Hp.
  rewrite Hfs, Hgm. destruct (dict_get f m) as [v|] eqn:Hg.
  - destruct (Hsp f v (dict_get_Some _ _ _ Hg)) as [Hk Hv].
    rewrite Hk, Hv, rename_at_judge. cbn [andb].
    destruct (judge H f v (t !! f) (t !! v));
      destruct st; simpl in *; by subst.
  - unfold log_write_name. rewrite Hp. destruct st; simpl in *; by subst.
Qed.

Lemma v3_stop st f :
  g_mapping st = m → passable m f = false →
  v3_body H f st =
    (st, Some (UnicodeEncodeError (encode_error H (msg_skipped f +:+ nl)))).
Proof.
  intros Hgm Hp. unfold v3_body, passable in *. rewrite Hgm.
  destruct (dict_get f m); [done|]. unfold log_write_name. by rewrite Hp.
Qed.

Context (Hm : table_ok m).

Lemma v1_pass st t0 es :
  console_ok H = true → fs st = Some t0 →
  NoDup es.*1 → (∀ e, e ∈ es → e ∈ m) →
  for_each (v1_body H) es st =
    ({| fs := Some (foldl (try_at true H m) t0 es.*1);
        g_mapping := g_mapping st;
        stdout := stdout st ++ ((λ e, tells true H t0 e.1 e.2) <$> es);
        log := log st |}, None).
Proof.
  intros Hc Hfs. induction es as [|[k v] es IH] using rev_ind; intros Hnd Hin.
  - simpl. rewrite app_nil_r. destruct st; simpl in *. by subst.
  - rewrite fmap_app in Hnd. cbn [fmap list_fmap fst] in Hnd.
    apply NoDup_app in Hnd as (Hnd & Hk & _).
    assert (k ∉ es.*1) as Hkes. { intros Hi. apply (Hk k Hi). left. }
    assert (dict_get k m = Some v) as Hg.
    { apply dict_get_elem; [apply Hm|]. apply Hin, elem_of_app. right. left. }
    rewrite each_snoc, IH; [|done|].
    2:{ intros e He. apply Hin, elem_of_app. by left. }
    erewrite v1_step; [|done|done|done]. cbn [fs g_mapping stdout log].
    destruct (fold_try_fresh true H m Hm t0 es.*1 k v Hnd Hkes Hg) as [Htk Htv].
    rewrite !fmap_app. cbn [fmap list_fmap fst snd]. rewrite foldl_snoc.
    do 2 f_equal. rewrite <-(assoc_L (++)). do 2 f_equal.
    by rewrite (tells_stable true H _ t0 k v Htk Htv).
Qed.

Lemma v2_pass st t0 ks :
  fs st = Some t0 → g_mapping st = m → NoDup ks →
  for_each (v2_body H) ks st =
    ({| fs := Some (foldl (try_at false H m) t0 ks); g_mapping := m;
        stdout := stdout st ++ (ks ≫= v2_tells H m t0); log := log st |}, None).
Proof.
  intros Hfs Hgm. induction ks as [|x ks IH] using rev_ind; intros Hnd.
  - simpl. rewrite app_nil_r. destruct st; simpl in *. by subst.
  - apply NoDup_app in Hnd as (Hnd & Hx & _).
    assert (x ∉ ks) as Hxks. { intros Hi. apply (Hx x Hi). left. }
    rewrite each_snoc, IH by done.
    erewrite v2_step; [|done|done]. cbn [fs g_mapping stdout log].
    rewrite foldl_snoc, bind_app. cbn [mbind list_bind]. rewrite app_nil_r.
    do 2 f_equal. rewrite <-(assoc_L (++)). do 2 f_equal.
    unfold v2_tells. destruct (dict_get x m) as [v|] eqn:Hg; [|done].
    destruct (fold_try_fresh false H m Hm t0 ks x v Hnd Hxks Hg) as [Htk Htv].
    by rewrite (tells_stable false H _ t0 x v Htk Htv).
Qed.

Lemma v3_pass st t0 ks :
  fs st = Some t0 → g_mapping st = m → NoDup ks →
  Forall (λ f, passable m f = true) ks →
  for_each (v3_body H) ks st =
    ({| fs := Some (foldl (try_at false H m) t0 ks); g_mapping := m;
        stdout := stdout st; log := log st ++ (v3_tells H m t0 <$> ks) |},
     None).
Proof.
  intros Hfs Hgm. induction ks as [|x ks IH] using rev_ind; intros Hnd Hp.
  - simpl. rewrite app_nil_r. destruct st; simpl in *. by subst.
  - apply NoDup_app in Hnd as (Hnd & Hx & _).
    apply Forall_app in Hp as [Hp Hpx].
    apply (proj1 (Forall_singleton _ _)) in Hpx.
    assert (x ∉ ks) as Hxks. { intros Hi. apply (Hx x Hi). left. }
    rewrite each_snoc, IH by done.
    erewrite v3_step; [|done|done|exact Hpx]. cbn [fs g_mapping stdout log].
    rewrite foldl_snoc, fmap_app. cbn [fmap list_fmap].
    do 2 f_equal. rewrite <-(assoc_L (++)). do 2 f_equal.
    unfold v3_tells. destruct (dict_get x m) as [v|] eqn:Hg; [|done].
    destruct (fold_try_fresh false H m Hm t0 ks x v Hnd Hxks Hg) as [Htk Htv].
    by rewrite (tells_stable false H _ t0 x v Htk Htv).
Qed.

Lemma reach_split files :
  Forall (λ f, passable m f = true) (reach m files) ∧
  match stopper m files with
  | None => reach m files = files
  | Some b => passable m b = false ∧ ∃ post, files = reach m files ++ b :: post
  end.
Proof.
  induction files as [|f files [IH1 IH2]]; simpl; [done|].
  destruct (passable m f) eqn:Hp.
  - split; [by constructor|]. destruct (stopper m files) as [b|].
    + destruct IH2 as [Hb [post Hpost]]. split; [done|].
      exists post. simpl. by rewrite <-Hpost.
    + simpl. by rewrite IH2.
  - split; [done|]. split; [done|]. by exists files.
Qed.

Lemma reach_nodup files : NoDup files → NoDup (reach m files).
Proof.
  destruct (reach_split files) as [_ Hs]. intros Hnd.
  destruct (stopper m files) as [b|].
  - destruct Hs as [_ [post Hpost]]. rewrite Hpost in Hnd.
    by apply NoDup_app in Hnd as [? _].
  - by rewrite Hs.
Qed.

Lemma reach_elem files f : f ∈ reach m files → f ∈ files.
Proof.
  destruct (reach_split files) as [_ Hs]. intros Hf.
  destruct (stopper m files) as [b|].
  - destruct Hs as [_ [post ->]]. apply elem_of_app. by left.
  - by rewrite <-Hs.
Qed.

(** v3's loop: all the names it reaches, then the exception of the name
    it stops at. *)
Lemma v3_loop_stop st t0 files :
  fs st = Some t0 → g_mapping st = m → NoDup files →
  for_each (v3_body H) files st =
    ({| fs := Some (foldl (try_at false H m) t0 (reach m files));
        g_mapping := m; stdout := stdout st;
        log := log st ++ (v3_tells H m t0 <$> reach m files) |},
     match stopper m files with
     | Some b =>
       Some (UnicodeEncodeError (encode_error H (msg_skipped b +:+ nl)))
     | None => None
     end).
Proof.
  intros Hfs Hgm Hnd. destruct (reach_split files) as [Hp Hs].
  pose proof (reach_nodup files Hnd) as Hnd'.
  destruct (stopper m files) as [b|].
  - destruct Hs as [Hb [post Hpost]]. rewrite Hpost at 1.
    rewrite for_each_app, (v3_pass st t0) by done.
    cbn [for_each]. by rewrite v3_stop.
  - rewrite Hs in *. by apply v3_pass.
Qed.
End bodies.

(** ** The scripts *)

(** v1 probes each key before it renames; v2 and v3 do not. *)
Definition probes (ver : version) : bool :=
  match ver with V1 => true | _ => false end.

(** The names a version goes through. *)
Definition walked (ver : version) (H : host) (t0 : tree) : list string :=
  match ver with
  | V1 => mapping.*1
  | V2 => readdir H t0
  | V3 => reach mapping (readdir H t0)
  end.

(** The directory a version leaves behind. *)
Definition after (ver : version) (H : host) (t0 : tree) : tree :=
  foldl (try_at (probes ver) H mapping) t0 (walked ver H t0).

(** What a version reports for the directory it starts from. *)
Definition reported (ver : version) (H : host) (t0 : tree) : list string :=
  match ver with
  | V1 => (λ e : string * string, tells true H t0 e.1 e.2) <$> mapping
  | V2 => ("Files in " +:+ base_dir +:+ ": " +:+ repr H (readdir H t0))
          :: (readdir H t0 ≫= v2_tells H mapping t0)
  | V3 => ("Files found: " +:+ repr H (readdir H t0) +:+ nl)
          :: (v3_tells H mapping t0 <$> reach mapping (readdir H t0))
          ++ match stopper mapping (readdir H t0) with
             | Some b =>
               [msg_global (encode_error H (msg_skipped b +:+ nl)) +:+ nl]
             | None => []
             end
  end.

(** What a version needs from its surroundings to get through: a console
    that takes v1's records, a directory that can be listed for v2 and
    v3, a log that can be opened for v3. *)
Definition ready (ver : version) (H : host) : Prop :=
  match ver with
  | V1 => console_ok H = true
  | V2 => listable H = true
  | V3 => log_ok H = true ∧ listable H = true
  end.

Lemma v1_run H t0 :
  console_ok H = true → spelled H →
  rename_images H (Some t0) =
    Exit0 {| fs := Some (after V1 H t0); g_mapping := mapping;
             stdout := reported V1 H t0; log := [] |}.
Proof.
  intros Hc. unfold spelled, rename_images, after, walked, reported, probes.
  generalize mapping_ok. generalize mapping. intros m Hm Hsp.
  cbn [g_mapping set_mapping].
  by rewrite (v1_pass H m Hsp Hm _ t0 m) by (try done; apply Hm).
Qed.

Lemma v2_run H t0 :
  listable H = true → readdir_ok H → spelled H →
  rename_images_v2 H (Some t0) =
    Exit0 {| fs := Some (after V2 H t0); g_mapping := mapping;
             stdout := reported V2 H t0; log := [] |}.
Proof.
  intros Hl HR.
  unfold spelled, rename_images_v2, os_listdir, after, walked, reported, probes.
  generalize mapping_ok. generalize mapping. intros m Hm Hsp.
  cbn [fs boot]. rewrite Hl.
  by rewrite (v2_pass H m Hsp Hm _ t0 (readdir H t0)) by (try done; apply HR).
Qed.

Lemma v3_run H t0 :
  log_ok H = true → listable H = true → readdir_ok H → spelled H →
  rename_images_v3 H (Some t0) =
    Exit0 {| fs := Some (after V3 H t0); g_mapping := mapping;
             stdout := ["Done"]; log := reported V3 H t0 |}.
Proof.
  intros Hlog Hl HR.
  unfold spelled, rename_images_v3, os_listdir, after, walked, reported, probes.
  generalize mapping_ok. generalize mapping. intros m Hm Hsp.
  cbn [fs boot set_mapping open_log]. rewrite Hlog, Hl.
  rewrite (v3_loop_stop H m Hsp Hm _ t0 (readdir H t0)) by (try done; apply HR).
  destruct (stopper m (readdir H t0)); unfold put, log_write;
    cbn [fs g_mapping stdout log set_mapping open_log boot app str];
    do 2 f_equal; by rewrite ?app_nil_r.
Qed.

(** Every version, on a directory that is there. *)
Lemma run_there ver H t0 :
  ready ver H → readdir_ok H → spelled H →
  ∃ st, run ver H (Some t0) = Exit0 st ∧ fs st = Some (after ver H t0) ∧
        g_mapping st = mapping ∧ report ver st = reported ver H t0.
Proof.
  intros Hr HR Hsp. destruct ver; simpl in Hr |- *.
  - rewrite v1_run by done. eauto.
  - rewrite v2_run by done. eauto.
  - destruct Hr. rewrite v3_run by done. eauto.
Qed.

Lemma walked_once ver H t0 : readdir_ok H → NoDup (walked ver H t0).
Proof.
  intros HR. destruct ver; unfold walked.
  - apply mapping_ok.
  - apply HR.
  - apply reach_nodup, HR.
Qed.

Lemma after_lands ver H t0 f :
  readdir_ok H →
  after ver H t0 !! f
  = lands (probes ver) H mapping t0 (walked ver H t0) f.
Proof.
  intros HR. unfold after.
  by rewrite (fold_try_lookup _ H mapping mapping_ok) by by apply walked_once.
Qed.

(** Every listed name that is not a key can be written to the log. *)
Definition log_takes (H : host) (t0 : tree) : Prop :=
  ∀ f, f ∈ readdir H t0 → dict_get f mapping = None → encodable f = true.

(** Every source that the directory holds is listed as the table
    spells it. *)
Definition listed_as_spelled (H : host) (t0 : tree) : Prop :=
  ∀ k v, (k, v) ∈ mapping → is_Some (t0 !! k) → k ∈ readdir H t0.

Lemma passable_all (files : list string) :
  Forall (λ f, passable mapping f = true) files →
  reach mapping files = files ∧ stopper mapping files = None.
Proof.
  induction 1 as [|f files Hf _ [IH1 IH2]]; simpl; [done|].
  by rewrite Hf, IH1, IH2.
Qed.

Lemma log_takes_all H t0 :
  log_takes H t0 →
  reach mapping (readdir H t0) = readdir H t0 ∧
  stopper mapping (readdir H t0) = None.
Proof.
  intros Ht. apply passable_all, Forall_forall. intros f Hf.
  unfold passable. destruct (dict_get f mapping) eqn:Hg; [done|].
  by apply Ht.
Qed.

(** A source is among the names a version goes through: v1 goes
    through the table; v2 and v3 go through the listing, and find the
    source there when it is listed as the table spells it, unless v3
    stopped before it. *)
Lemma walked_present ver H t0 k v :
  (ver = V3 → log_takes H t0) → (ver ≠ V1 → k ∈ readdir H t0) →
  (k, v) ∈ mapping → k ∈ walked ver H t0.
Proof.
  intros Ht Hls Hin. destruct ver; unfold walked.
  - by eapply elem_keys.
  - by apply Hls.
  - rewrite (proj1 (log_takes_all H t0 (Ht eq_refl))). by apply Hls.
Qed.

(** ** One entry *)

(** The rename of an entry whose source is a regular file moves it when
    [os.rename] does not raise and the destination is not another name
    of the same file. *)
Lemma fate_regular probe H t0 k v i c :
  spelled H → (k, v) ∈ mapping →
  t0 !! k = Some (Regular i c) →
  (∀ e, os_rename H k v (Some t0) ≠ inl e) →
  (∀ c', t0 !! v ≠ Some (Regular i c')) →
  fate_of probe H t0 k v = Moved (Regular i c).
Proof.
  intros Hsp Hin Hk Hren Hlink. destruct (Hsp k v Hin) as [Hsk Hsv].
  pose proof (dict_get_elem k v mapping (keys_nodup _ mapping_ok) Hin) as Hg.
  pose proof (key_ne_val _ mapping_ok k v Hg) as Hne.
  pose proof (no_raise_judge H k v t0 Hren) as Hno. clear Hren.
  rename Hno into Hren. rewrite Hsk, Hsv in Hren.
  assert (searchable H = true) as Hs.
  { destruct (searchable H) eqn:Hs; [done|]. unfold judge in Hren.
    rewrite Hs in Hren. by destruct (Hren EACCES). }
  unfold fate_of, exists_at. rewrite Hs, Hk. cbn [andb negb].
  rewrite andb_false_r. rewrite Hk in Hren.
  revert Hren.
  destruct (judge H k v (Some (Regular i c)) (t0 !! v)) as [text| |src] eqn:Hj;
    intros Hren.
  - by destruct (Hren text).
  - exfalso. unfold judge in Hj. rewrite Hs in Hj. cbn [negb] in Hj.
    destruct (locked H !! k); [done|].
    destruct (t0 !! v) as [dst|] eqn:Hv; [|done].
    destruct (decide (k = v)); [done|].
    destruct (plat H).
    2:{ destruct (same_file (Regular i c) dst);
          by destruct (clash Windows (Regular i c) dst). }
    destruct dst as [j c'| |e]; cbn [same_file clash] in Hj; try done.
    case_bool_decide as Hij; [|done]. subst j. by eapply Hlink.
  - apply judge_moves_src in Hj. by simplify_eq.
Qed.

Lemma rename_by_judge H k v t src :
  judge H (store H k) (store H v) (t !! store H k) (t !! store H v)
    = Moves src →
  ∀ e, os_rename H k v (Some t) ≠ inl e.
Proof. intros Hj e. by rewrite os_rename_judge, Hj. Qed.

(** ** C1 *)

(** C1, amended: take an entry of the table whose source is a regular
    file in the base directory before the pass, whose [os.rename] does
    not raise, and whose destination is not already another name of the
    same file. On a file system that keeps the names of the table as
    spelled, and when the version gets to the entry (v1: the console
    takes its records; v2 and v3: the directory can be listed and the
    listing shows the source as the table spells it; v3: the log can be
    opened and takes every listed name that is not a key), after one
    run the source name is gone and the destination name holds the file,
    with the contents the source had. *)
Theorem C1_renamed_source_is_moved ver H t0 k v i c :
  readdir_ok H → spelled H → ready ver H → (ver = V3 → log_takes H t0) →
  (ver ≠ V1 → k ∈ readdir H t0) →
  (k, v) ∈ mapping → t0 !! k = Some (Regular i c) →
  (∀ e, os_rename H k v (Some t0) ≠ inl e) →
  (∀ c', t0 !! v ≠ Some (Regular i c')) →
  ∃ st t', run ver H (Some t0) = Exit0 st ∧ fs st = Some t' ∧
           t' !! k = None ∧ t' !! v = Some (Regular i c).
Proof.
  intros HR Hsp Hr Ht Hls Hin Hk Hren Hlink.
  destruct (run_there ver H t0 Hr HR Hsp) as (st & Hrun & Hfs & _).
  exists st, (after ver H t0). split; [done|]. split; [done|].
  pose proof (dict_get_elem k v mapping (keys_nodup _ mapping_ok) Hin) as Hg.
  pose proof (fate_regular (probes ver) H t0 k v i c Hsp Hin Hk Hren Hlink)
    as Hf.
  assert (k ∈ walked ver H t0) as Hw.
  { eapply walked_present; eauto. }
  rewrite !after_lands by done.
  rewrite (lands_key _ H mapping t0 _ k v Hg).
  rewrite (lands_val _ H mapping mapping_ok t0 _ k v Hg).
  by rewrite bool_decide_true, Hf by done.
Qed.

Lemma host0_listed (p : platform) (t : tree) (f : string) :
  f ∈ readdir (host0 p) t → is_Some (t !! f).
Proof.
  simpl. rewrite list_elem_of_fmap.
  intros [[k c] [-> Hkc%elem_of_map_to_list]]. eauto.
Qed.

Lemma host0_readdir_ok p : readdir_ok (host0 p).
Proof.
  intros t. split; [apply NoDup_fst_map_to_list|apply host0_listed].
Qed.

Lemma host0_lists (p : platform) (t : tree) (f : string) :
  is_Some (t !! f) → f ∈ readdir (host0 p) t.
Proof.
  intros [c Hc]. simpl. rewrite list_elem_of_fmap. exists (f, c).
  by rewrite elem_of_map_to_list.
Qed.

Lemma host0_spelled p : spelled (host0 p).
Proof. by intros k v _. Qed.

(** A directory with the cat picture and a file whose name is not
    UTF-8, which v3 cannot log. *)
Definition odd_name : string := String (Ascii.ascii_of_nat 176) "x".

Lemma C1_renamed_source_is_moved_witness :
  ∃ st t', run V3 (host0 Posix)
             (Some {[cat := Regular 7 "meow"; "notes.txt" := Regular 8 "n"]})
           = Exit0 st ∧ fs st = Some t' ∧
           t' !! cat = None ∧ t' !! cat_mascot = Some (Regular 7 "meow").
Proof.
  apply (C1_renamed_source_is_moved V3 (host0 Posix)
           {[cat := Regular 7 "meow"; "notes.txt" := Regular 8 "n"]}
           cat cat_mascot 7 "meow").
  - apply host0_readdir_ok.
  - apply host0_spelled.
  - by split.
  - intros _ f Hf _. apply host0_listed in Hf as [n Hn].
    apply lookup_insert_Some in Hn as [[<- _]|[_ Hn]]; [done|].
    by apply lookup_singleton_Some in Hn as [<- _].
  - intros _. apply host0_lists. by apply (bool_decide_unpack _).
  - by apply (bool_decide_unpack _).
  - vm_compute. reflexivity.
  - apply (rename_by_judge _ _ _ _ (Regular 7 "meow")). vm_compute. reflexivity.
  - intros c' Hc. vm_compute in Hc. discriminate Hc.
Defined.

(** v3 ends in a traceback only when the log cannot be opened. *)
Lemma run_v3_final H o :
  log_ok H = true → run V3 H o = Exit0 (final (run V3 H o)).
Proof.
  intros Hlog. unfold run, rename_images_v3. rewrite Hlog. reflexivity.
Qed.

(** A test of all the entries of the table that can be run. *)
Lemma Forall_pairs (P : string → string → Prop) :
  Forall (λ e : string * string, P e.1 e.2) mapping ↔
  ∀ k v, (k, v) ∈ mapping → P k v.
Proof.
  rewrite Forall_forall. split.
  - intros HP k v Hin. apply (HP (k, v) Hin).
  - intros HP [k v] Hin. by apply HP.
Qed.

(** ** C4 *)

(** A record that tells of no rename: [not found], [Skipped], the
    listing, or v3's [Global error]. *)
Definition quiet (l : string) : Prop :=
  (is_not_found l = true ∨ is_skipped l = true ∨ is_listing l = true ∨
   is_global l = true) ∧
  is_renamed l = false ∧ is_error l = false.

(** C4, as stated, fails: when a source and its destination are two
    names of one file, POSIX [os.rename] returns normally and changes
    nothing. Every rename of the first run succeeds, and the second run
    writes [Renamed] again. *)
Lemma C4_hard_link_is_renamed_again :
  let t0 : tree := {[cat := Regular 7 "meow"; cat_mascot := Regular 7 "meow"]} in
  ∃ st1 st2,
    run V1 (host0 Posix) (Some t0) = Exit0 st1 ∧
    Forall (λ l, is_error l = false) (stdout st1) ∧
    msg_renamed cat cat_mascot ∈ stdout st1 ∧
    run V1 (host0 Posix) (fs st1) = Exit0 st2 ∧
    msg_renamed cat cat_mascot ∈ stdout st2 ∧
    ¬ Forall quiet (stdout st2).
Proof.
  eexists _, _. split; [vm_compute; reflexivity|].
  split; [by apply (bool_decide_unpack _)|].
  split; [by apply (bool_decide_unpack _)|].
  split; [vm_compute; reflexivity|].
  split; [by apply (bool_decide_unpack _)|].
  intros Hq. apply Forall_forall with (x := msg_renamed cat cat_mascot) in Hq.
  - destruct Hq as (_ & Hren & _). by vm_compute in Hren.
  - by apply (bool_decide_unpack _).
Qed.

Lemma fate_absent probe H t k v :
  t !! k = None → is_moved (fate_of probe H t k v) = false ∧
  tells true H t k v = msg_not_found k.
Proof.
  intros Hk. unfold tells, fate_of, exists_at, judge. rewrite Hk.
  by destruct probe, (searchable H).
Qed.

(** A pass over a directory that holds no source changes nothing. *)
Lemma after_idle ver H t1 :
  readdir_ok H → (∀ k v, (k, v) ∈ mapping → t1 !! k = None) →
  after ver H t1 = t1.
Proof.
  intros HR Hno. apply map_eq. intros f. rewrite after_lands by done.
  unfold lands. destruct (dict_get f mapping) as [v|] eqn:Hg.
  - rewrite (proj1 (fate_absent _ H t1 f v (Hno f v (dict_get_Some _ _ _ Hg)))).
    by rewrite andb_false_r.
  - destruct (dict_rget f mapping) as [k|] eqn:Hr; [|done].
    rewrite (proj1 (fate_absent _ H t1 k f (Hno k f (dict_rget_Some _ _ _ Hr)))).
    by rewrite andb_false_r.
Qed.

Lemma quiet_not_found k : quiet (msg_not_found k).
Proof.
  destruct (not_found_kind V1 k) as (? & ? & ? & ?). unfold quiet. auto.
Qed.

Lemma quiet_skipped f : quiet (msg_skipped f +:+ nl).
Proof.
  destruct (skipped_kind V3 f) as (? & ? & ? & ?). unfold quiet. auto.
Qed.

Lemma quiet_global text : quiet (msg_global text +:+ nl).
Proof.
  unfold quiet, msg_global. split; [|done]. do 3 right.
  unfold is_global. by rewrite append_assoc, prefix_app.
Qed.

Lemma quiet_listing ver H files :
  quiet (match ver with
         | V3 => "Files found: " +:+ repr H files +:+ nl
         | _ => "Files in " +:+ base_dir +:+ ": " +:+ repr H files
         end).
Proof.
  unfold quiet. split; [|by destruct ver]. right. right. left.
  unfold is_listing. destruct ver; try done.
  by rewrite prefix_app, orb_true_r.
Qed.

Lemma reported_idle ver H t1 :
  readdir_ok H → spelled H → (∀ k v, (k, v) ∈ mapping → t1 !! k = None) →
  Forall quiet (reported ver H t1).
Proof.
  intros HR Hsp Hno.
  assert (∀ f, f ∈ readdir H t1 → dict_get f mapping = None) as Hlist.
  { intros f Hf%HR. destruct (dict_get f mapping) as [v|] eqn:Hg; [|done].
    pose proof (dict_get_Some _ _ _ Hg) as Hin.
    rewrite (proj1 (Hsp f v Hin)), (Hno f v Hin) in Hf. by destruct Hf. }
  destruct ver; unfold reported.
  - apply Forall_fmap, Forall_forall. intros [k v] Hin. cbn [fst snd compose].
    rewrite (proj2 (fate_absent true H t1 k v (Hno k v Hin))).
    apply quiet_not_found.
  - constructor; [apply (quiet_listing V2)|].
    apply Forall_forall. intros l (f & Hl & Hf)%list_elem_of_bind.
    unfold v2_tells in Hl. rewrite (Hlist f Hf) in Hl.
    by apply elem_of_nil in Hl.
  - constructor; [apply (quiet_listing V3)|]. apply Forall_app. split.
    + apply Forall_fmap, Forall_forall. intros f Hf. cbn [compose].
      unfold v3_tells.
      rewrite (Hlist f (reach_elem mapping _ f Hf)). apply quiet_skipped.
    + destruct (stopper mapping (readdir H t1)); [|done].
      constructor; [apply quiet_global|done].
Qed.

Lemma v1_body_bad_console H e st :
  console_ok H = false → ∃ st' x, v1_body H e st = (st', Some x).
Proof.
  intros Hc. destruct e as [k v]. unfold v1_body, print. rewrite Hc.
  destruct (os_path_exists H (fs st) k); [|by eauto].
  destruct (os_rename H k v (fs st)); by eauto.
Qed.

(** On a console that cannot encode its records v1 never ends
    normally. *)
Lemma v1_needs_console H o st :
  run V1 H o = Exit0 st → console_ok H = true.
Proof.
  destruct (console_ok H) eqn:Hc; [done|].
  unfold run, rename_images. cbn [g_mapping set_mapping].
  unfold mapping at 1. cbn [for_each].
  destruct (v1_body_bad_console H ("건희.png", "member-geonhee.png")
              (set_mapping mapping (boot o)) Hc) as (st' & x & ->).
  done.
Qed.

Lemma run_v1_gone H :
  console_ok H = true →
  rename_images H None =
    Exit0 {| fs := None; g_mapping := mapping;
             stdout := msg_not_found <$> mapping.*1; log := [] |}.
Proof.
  intros Hc. unfold rename_images, mapping. cbn [g_mapping set_mapping].
  cbn [for_each v1_body os_path_exists fs set_mapping boot].
  unfold print. rewrite Hc. reflexivity.
Qed.

Lemma run_v3_unlisted H o e :
  log_ok H = true → os_listdir H o = inl e →
  rename_images_v3 H o =
    Exit0 {| fs := o; g_mapping := mapping; stdout := ["Done"];
             log := [msg_global (str e) +:+ nl] |}.
Proof.
  intros Hlog Hls. unfold rename_images_v3.
  cbn [fs boot set_mapping open_log]. by rewrite Hlog, Hls.
Qed.

(** C4, amended: take a run that ended normally and left no source name
    in the directory (every source that was there was renamed away), on
    a file system that keeps the names of the table as spelled. A second
    run right after it ends normally, leaves the directory as the first
    run left it, and writes no [Renamed] and no [Error renaming] record:
    only [not found] (v1) or [Skipped] (v3) records, the listing line of
    v2 and v3, and, when a listed name cannot be encoded into the log, a
    last [Global error] record of v3. *)
Theorem C4_second_run_after_clean_run ver H o st1 :
  readdir_ok H → spelled H → run ver H o = Exit0 st1 →
  (∀ t1 k v, fs st1 = Some t1 → (k, v) ∈ mapping → t1 !! k = None) →
  ∃ st2, run ver H (fs st1) = Exit0 st2 ∧ fs st2 = fs st1 ∧
         Forall quiet (report ver st2).
Proof.
  intros HR Hsp Hrun Hno.
  assert (∀ t1, fs st1 = Some t1 → ready ver H →
    ∃ st2, run ver H (Some t1) = Exit0 st2 ∧ fs st2 = Some t1 ∧
           Forall quiet (report ver st2)) as Hthere.
  { intros t1 Hfs Hr.
    destruct (run_there ver H t1 Hr HR Hsp) as (st2 & Hrun2 & Hfs2 & _ & Hrep).
    exists st2. split; [done|].
    rewrite Hfs2, Hrep, after_idle by eauto. split; [done|].
    apply reported_idle; eauto. }
  destruct ver.
  - pose proof (v1_needs_console H o st1 Hrun) as Hc.
    destruct (fs st1) as [t1|] eqn:Hfs; [by apply Hthere|].
    change (run V1 H None) with (rename_images H None).
    rewrite run_v1_gone by done. eexists. split; [done|]. split; [done|].
    cbn [report stdout]. apply Forall_fmap, Forall_forall. intros k _.
    apply quiet_not_found.
  - change (run V2 H o) with (rename_images_v2 H o) in Hrun.
    destruct o as [t0|]; [|done]. destruct (listable H) eqn:Hl.
    2:{ unfold rename_images_v2, os_listdir in Hrun. cbn [fs boot] in Hrun.
        by rewrite Hl in Hrun. }
    rewrite v2_run in Hrun by done. injection Hrun as <-.
    by apply Hthere.
  - change (run V3 H o) with (rename_images_v3 H o) in Hrun.
    destruct (log_ok H) eqn:Hlog.
    2:{ unfold rename_images_v3 in Hrun. by rewrite Hlog in Hrun. }
    destruct (os_listdir H o) as [e|files] eqn:Hls.
    + rewrite (run_v3_unlisted H o e Hlog Hls) in Hrun. injection Hrun as <-.
      cbn [fs]. change (run V3 H o) with (rename_images_v3 H o).
      rewrite (run_v3_unlisted H o e Hlog Hls).
      eexists. split; [done|]. split; [done|]. cbn [report log].
      constructor; [apply quiet_global|done].
    + unfold os_listdir in Hls. destruct o as [t0|]; [|done].
      destruct (listable H) eqn:Hl; [|done].
      rewrite v3_run in Hrun by done. injection Hrun as <-.
      by apply Hthere.
Qed.

Lemma C4_second_run_after_clean_run_witness :
  ∃ st2,
    run V3 (host0 Posix)
        (fs (final (run V3 (host0 Posix)
                      (Some {[cat := Regular 7 "meow";
                              odd_name := Regular 8 "n"]}))))
      = Exit0 st2 ∧
    fs st2 = fs (final (run V3 (host0 Posix)
                          (Some {[cat := Regular 7 "meow";
                                  odd_name := Regular 8 "n"]}))) ∧
    Forall quiet (report V3 st2).
Proof.
  apply (C4_second_run_after_clean_run V3 (host0 Posix)
           (Some {[cat := Regular 7 "meow"; odd_name := Regular 8 "n"]})).
  - apply host0_readdir_ok.
  - apply host0_spelled.
  - apply run_v3_final. reflexivity.
  - intros t1 k v Hfs Hin.
    pose proof (proj1 (Forall_pairs (λ k _,
      fs (final (run V3 (host0 Posix)
                   (Some {[cat := Regular 7 "meow";
                           odd_name := Regular 8 "n"]})))
      ≫= (.!! k) = None))) as Hall.
    specialize (Hall ltac:(apply (bool_decide_unpack _); vm_compute; exact I)
                  k v Hin).
    cbv beta in Hall. by rewrite Hfs in Hall.
Defined.

(** ** C7 *)

(** C7, as stated, fails: a key that names a symbolic link to nothing is
    listed by [os.listdir] and taken by [os.rename], but
    [os.path.exists] says it is not there. v1 leaves it, v2 (and v3)
    rename it, and no rename that was tried failed. *)
Lemma C7_broken_link_splits_the_strategies :
  let t0 : tree := {[cat := Broken]} in
  ∃ st1 st2,
    run V1 (host0 Posix) (Some t0) = Exit0 st1 ∧
    run V2 (host0 Posix) (Some t0) = Exit0 st2 ∧
    Forall (λ l, is_error l = false) (stdout st1 ++ stdout st2) ∧
    fs st1 = Some {[cat := Broken]} ∧
    fs st2 = Some {[cat_mascot := Broken]} ∧
    fs st1 ≠ fs st2.
Proof.
  eexists _, _. split; [vm_compute; reflexivity|].
  split; [vm_compute; reflexivity|].
  split; [by apply (bool_decide_unpack _)|].
  split; [vm_compute; reflexivity|]. split; [vm_compute; reflexivity|].
  intros Heq. apply (f_equal (λ o : option tree, o ≫= (.!! cat))) in Heq.
  vm_compute in Heq. discriminate Heq.
Qed.

(** The name [f] after a pass that reached every name and met no broken
    link under a key. *)
Definition settled (H : host) (t0 : tree) (f : string) : option node :=
  match dict_get f mapping with
  | Some v => if is_moved (fate_of false H t0 f v) then None else t0 !! f
  | None =>
    match dict_rget f mapping with
    | Some k => if is_moved (fate_of false H t0 k f) then t0 !! k else t0 !! f
    | None => t0 !! f
    end
  end.

Lemma moved_present probe H t k v :
  is_moved (fate_of probe H t k v) = true → is_Some (t !! k).
Proof.
  destruct (fate_of probe H t k v) as [|?| |src] eqn:Hf; try done.
  apply fate_moved_src in Hf. eauto.
Qed.

Lemma fate_probe H t k v :
  t !! k ≠ Some Broken →
  is_moved (fate_of true H t k v) = is_moved (fate_of false H t k v).
Proof.
  intros Hb. unfold fate_of, exists_at, judge. cbn [andb].
  destruct (searchable H); [|done]. cbn [andb negb].
  destruct (t !! k) as [[| |]|]; try done.
Qed.

Lemma after_settled ver H t0 f :
  readdir_ok H → (ver = V3 → log_takes H t0) → listed_as_spelled H t0 →
  (∀ k v, (k, v) ∈ mapping → t0 !! k ≠ Some Broken) →
  after ver H t0 !! f = settled H t0 f.
Proof.
  intros HR Ht Hls Hb. rewrite after_lands by done. unfold lands, settled.
  assert (∀ k v, (k, v) ∈ mapping →
    bool_decide (k ∈ walked ver H t0) && is_moved (fate_of (probes ver) H t0 k v)
    = is_moved (fate_of false H t0 k v)) as Hsame.
  { intros k v Hin.
    assert (is_moved (fate_of (probes ver) H t0 k v)
            = is_moved (fate_of false H t0 k v)) as ->.
    { destruct ver; try done. apply fate_probe. by eapply Hb. }
    destruct (is_moved (fate_of false H t0 k v)) eqn:Hmv;
      [|by rewrite andb_false_r].
    rewrite bool_decide_true; [done|].
    eapply walked_present; eauto. intros _. apply (Hls k v Hin).
    by eapply moved_present. }
  destruct (dict_get f mapping) as [v|] eqn:Hg.
  - by rewrite (Hsame f v (dict_get_Some _ _ _ Hg)).
  - destruct (dict_rget f mapping) as [k|] eqn:Hr; [|done].
    by rewrite (Hsame k f (dict_rget_Some _ _ _ Hr)).
Qed.

(** [os.rename] returns normally. *)
Definition takes (H : host) (t0 : tree) (k v : string) : bool :=
  match os_rename H k v (Some t0) with inr _ => true | inl _ => false end.

Lemma takes_no_raise H t0 k v :
  takes H t0 k v = true → ∀ e, os_rename H k v (Some t0) ≠ inl e.
Proof. unfold takes. by destruct (os_rename H k v (Some t0)). Qed.

(** C7, amended: the two strategies end with the same directory on every
    base directory that is there and can be listed, in which every
    rename that is tried succeeds, no key names a dangling symbolic
    link, every source that is there is listed as the table spells it
    (so that [os.path.exists] and the listing agree on the keys), and
    every listed name that is not a key can be encoded into v3's log;
    on a file system that keeps the names of the table as spelled, with
    a console that takes v1's records and a log that can be opened. *)
Theorem C7_strategies_agree_on_plain_keys H t0 :
  readdir_ok H → spelled H →
  ready V1 H → ready V2 H → ready V3 H → log_takes H t0 →
  listed_as_spelled H t0 →
  (∀ k v, (k, v) ∈ mapping → t0 !! k ≠ Some Broken) →
  (∀ k v e, (k, v) ∈ mapping → is_Some (t0 !! k) →
     os_rename H k v (Some t0) ≠ inl e) →
  ∃ st1 st2 st3,
    run V1 H (Some t0) = Exit0 st1 ∧ run V2 H (Some t0) = Exit0 st2 ∧
    run V3 H (Some t0) = Exit0 st3 ∧
    fs st1 = fs st2 ∧ fs st2 = fs st3.
Proof.
  intros HR Hsp H1 H2 H3 Ht Hls Hb _.
  destruct (run_there V1 H t0 H1 HR Hsp) as (st1 & Hrun1 & Hfs1 & _).
  destruct (run_there V2 H t0 H2 HR Hsp) as (st2 & Hrun2 & Hfs2 & _).
  destruct (run_there V3 H t0 H3 HR Hsp) as (st3 & Hrun3 & Hfs3 & _).
  exists st1, st2, st3. repeat (split; [done|]).
  rewrite Hfs1, Hfs2, Hfs3.
  split; f_equal; apply map_eq; intros f; by rewrite !after_settled.
Qed.

Lemma C7_strategies_agree_on_plain_keys_witness :
  ∃ st1 st2 st3,
    run V1 (host0 Posix)
      (Some {[cat := Regular 7 "meow"; cat_mascot := Regular 9 "old"]})
      = Exit0 st1 ∧
    run V2 (host0 Posix)
      (Some {[cat := Regular 7 "meow"; cat_mascot := Regular 9 "old"]})
      = Exit0 st2 ∧
    run V3 (host0 Posix)
      (Some {[cat := Regular 7 "meow"; cat_mascot := Regular 9 "old"]})
      = Exit0 st3 ∧
    fs st1 = fs st2 ∧ fs st2 = fs st3.
Proof.
  apply (C7_strategies_agree_on_plain_keys (host0 Posix)
           {[cat := Regular 7 "meow"; cat_mascot := Regular 9 "old"]}).
  - apply host0_readdir_ok.
  - apply host0_spelled.
  - reflexivity.
  - reflexivity.
  - by split.
  - intros f Hf _. apply host0_listed in Hf as [n Hn].
    apply lookup_insert_Some in Hn as [[<- _]|[_ Hn]]; [done|].
    by apply lookup_singleton_Some in Hn as [<- _].
  - intros k v _. apply host0_lists.
  - apply (proj1 (Forall_pairs (λ k _,
      ({[cat := Regular 7 "meow"; cat_mascot := Regular 9 "old"]} : tree) !! k
      ≠ Some Broken))).
    apply (bool_decide_unpack _). vm_compute. exact I.
  - intros k v e Hin Hk. revert e. apply takes_no_raise. revert k v Hin Hk.
    apply (proj1 (Forall_pairs (λ k v,
      is_Some (({[cat := Regular 7 "meow"; cat_mascot := Regular 9 "old"]}
                : tree) !! k) →
      takes (host0 Posix)
        {[cat := Regular 7 "meow"; cat_mascot := Regular 9 "old"]} k v
      = true))).
    apply (bool_decide_unpack _). vm_compute. exact I.
Defined.

(** * More of the scripts, on a real directory *)

(** ** v3: the log that cannot be opened, the listing that fails *)

Lemma v3_body_shape H f st :
  stdout (v3_body H f st).1 = stdout st ∧
  ∃ rest, log (v3_body H f st).1 = log st ++ rest.
Proof.
  unfold v3_body. destruct (dict_get f (g_mapping st)) as [v|].
  - destruct (os_rename H f v (fs st)); split; try done; by eexists.
  - unfold log_write_name. destruct (encodable f); split; try done.
    + by eexists.
    + exists []. by rewrite app_nil_r.
Qed.

Lemma v3_loop_shape H files st :
  stdout (for_each (v3_body H) files st).1 = stdout st ∧
  ∃ rest, log (for_each (v3_body H) files st).1 = log st ++ rest.
Proof.
  revert st. induction files as [|f files IH]; intros st; cbn [for_each].
  - split; [done|]. exists []. by rewrite app_nil_r.
  - destruct (v3_body_shape H f st) as [Hout [r1 Hlog]].
    destruct (v3_body H f st) as [st' [e|]]; cbn [fst] in *.
    + split; [done|]. by exists r1.
    + destruct (IH st') as [Hout' [r2 Hlog']]. split; [congruence|].
      exists (r1 ++ r2). by rewrite Hlog', Hlog, (assoc_L (++)).
Qed.

(** X2: v3 ends in a traceback exactly when [rename_log.txt] cannot be
    opened, and then nothing was renamed or written. Otherwise it ends
    normally and prints [Done], and nothing else, on the console; when
    the directory cannot be listed its log holds the one record
    [Global error: <text of the listing error>] and the directory is
    left alone; when it can, the log starts with the listing line. *)
Theorem X2_v3_open_and_outer_try H o :
  if log_ok H then
    ∃ st, run V3 H o = Exit0 st ∧ stdout st = ["Done"] ∧
      match os_listdir H o with
      | inl e => log st = ["Global error: " +:+ str e +:+ nl] ∧ fs st = o
      | inr files =>
        ∃ rest, log st = ("Files found: " +:+ repr H files +:+ nl) :: rest
      end
  else
    ∃ e st, run V3 H o = Traceback e st ∧ fs st = o ∧
            stdout st = [] ∧ log st = [].
Proof.
  destruct (log_ok H) eqn:Hlog.
  - destruct (os_listdir H o) as [e|files] eqn:Hls.
    + change (run V3 H o) with (rename_images_v3 H o).
      rewrite (run_v3_unlisted H o e Hlog Hls). eexists. split; [done|].
      split; [done|]. split; [|done]. cbn [log]. unfold msg_global.
      by rewrite append_assoc.
    + unfold run, rename_images_v3. rewrite Hlog.
      cbn [fs boot set_mapping open_log]. rewrite Hls.
      match goal with
      | |- context [for_each (v3_body H) files ?s] =>
          destruct (v3_loop_shape H files s) as [Hout [rest Hrest]];
          destruct (for_each (v3_body H) files s) as [st' [e|]]
      end; cbn [fst] in *; eexists; (split; [done|]);
        cbn [put log_write stdout log]; rewrite Hout, Hrest;
        (split; [done|]); by eexists.
  - unfold run, rename_images_v3. rewrite Hlog. by eexists _, _.
Qed.

(** ** v1: the console *)

Lemma v1_body_on_bad_console H k v st :
  console_ok H = false →
  ∃ st' x, v1_body H (k, v) st = (st', Some x) ∧
    stdout st' = stdout st ∧ log st' = log st ∧
    ∀ f, f ≠ store H k → f ≠ store H v →
      fs st' ≫= (.!! f) = fs st ≫= (.!! f).
Proof.
  intros Hc. unfold v1_body, print. rewrite Hc.
  destruct (os_path_exists H (fs st) k); [|by eauto 10].
  destruct (os_rename H k v (fs st)) as [e|t'] eqn:Hr; [by eauto 10|].
  eexists _, _. split; [done|]. split; [done|]. split; [done|].
  intros f Hfk Hfv. cbn [fs set_fs]. unfold os_rename in Hr.
  destruct (fs st) as [t|]; [|done]. rewrite rename_at_judge in Hr.
  destruct (judge H _ _ _ _); try done; injection Hr as <-; [done|].
  cbn [mbind option_bind]. by rewrite lookup_insert_ne, lookup_delete_ne.
Qed.

Lemma tells_probe H t k v :
  tells true H t k v =
    if exists_at H t k then tells false H t k v else msg_not_found k.
Proof. unfold tells, fate_of. by destruct (exists_at H t k). Qed.

Lemma tells_forms H t k v :
  tells false H t k v = msg_renamed k v ∨
  ∃ text, tells false H t k v = msg_error k text.
Proof.
  unfold tells, fate_of. cbn [andb].
  destruct (judge H k v (t !! k) (t !! v)); eauto.
Qed.

(** X3: on a console that takes its records, and a file system that
    keeps the names of the table as spelled, v1 ends normally on every
    state of the directory, writes no log and prints exactly one record
    for each entry of the table, in the order of the table: [File not
    found] when [os.path.exists] says no for the source, and otherwise
    [Renamed] or [Error renaming] for that source. On a console that
    cannot encode the names v1 prints nothing and ends in a traceback
    while it handles the first entry: only that entry's names can have
    changed in the directory. *)
Theorem X3_v1_and_its_console H o :
  spelled H →
  if console_ok H then
    ∃ st, run V1 H o = Exit0 st ∧ log st = [] ∧
      Forall2 (λ (e : string * string) l,
                 if os_path_exists H o e.1
                 then l = msg_renamed e.1 e.2 ∨ ∃ t, l = msg_error e.1 t
                 else l = msg_not_found e.1)
              mapping (stdout st)
  else
    ∃ e st, run V1 H o = Traceback e st ∧ stdout st = [] ∧ log st = [] ∧
      ∀ f, f ≠ store H "건희.png" → f ≠ store H "member-geonhee.png" →
        fs st ≫= (.!! f) = o ≫= (.!! f).
Proof.
  intros Hsp. destruct (console_ok H) eqn:Hc.
  - destruct o as [t0|].
    + change (run V1 H (Some t0)) with (rename_images H (Some t0)).
      rewrite v1_run by done. eexists. split; [done|]. split; [done|].
      cbn [stdout reported]. apply Forall2_fmap_r, Forall_Forall2_diag.
      apply Forall_forall. intros [k v] Hin. cbn [fst snd].
      unfold os_path_exists, compose. cbn [fst snd].
      rewrite (proj1 (Hsp k v Hin)), tells_probe. fold (exists_at H t0 k).
      destruct (exists_at H t0 k); [apply tells_forms|done].
    + change (run V1 H None) with (rename_images H None).
      rewrite run_v1_gone by done. eexists. split; [done|]. split; [done|].
      cbn [stdout os_path_exists]. rewrite <-list_fmap_compose.
      apply Forall2_fmap_r, Forall_Forall2_diag. by apply Forall_forall.
  - unfold run, rename_images. cbn [g_mapping set_mapping].
    unfold mapping at 1. cbn [for_each].
    destruct (v1_body_on_bad_console H "건희.png" "member-geonhee.png"
                (set_mapping mapping (boot o)) Hc)
      as (st' & x & -> & Hout & Hlog & Hfs).
    by eexists _, _.
Qed.

Lemma X3_v1_and_its_console_witness :
  ∃ st, run V1 (host0 Posix) (Some {[cat := Broken]}) = Exit0 st ∧
    log st = [] ∧
    Forall2 (λ (e : string * string) l,
               if os_path_exists (host0 Posix) (Some {[cat := Broken]}) e.1
               then l = msg_renamed e.1 e.2 ∨ ∃ t, l = msg_error e.1 t
               else l = msg_not_found e.1)
            mapping (stdout st).
Proof.
  apply (X3_v1_and_its_console (host0 Posix) (Some {[cat := Broken]})),
    host0_spelled.
Defined.

(** ** v3: a listed name the log cannot take *)

Lemma reach_stop m pre bad post :
  Forall (λ f, passable m f = true) pre → passable m bad = false →
  reach m (pre ++ bad :: post) = pre ∧
  stopper m (pre ++ bad :: post) = Some bad.
Proof.
  intros Hpre Hbad. induction Hpre as [|f pre Hf _ [IH1 IH2]]; simpl.
  - by rewrite Hbad.
  - by rewrite Hf, IH1, IH2.
Qed.

(** X4: v3 writes [Skipped: <name>] into a log opened as UTF-8, and a
    listed name that is no key and that UTF-8 cannot encode makes that
    write raise. The outer [except] catches it: v3 still ends normally
    and prints [Done], but its loop is over. The log holds the listing
    line, one record for each name listed before the bad one, and
    [Global error: <text of the encoding error>]; every entry whose
    source is listed after the bad name is left as it was. *)
Theorem X4_v3_stops_at_a_name_it_cannot_log H t0 pre bad post :
  readdir_ok H → spelled H → log_ok H = true → listable H = true →
  readdir H t0 = pre ++ bad :: post →
  (∀ f, f ∈ pre → dict_get f mapping = None → encodable f = true) →
  dict_get bad mapping = None → encodable bad = false →
  ∃ st t', run V3 H (Some t0) = Exit0 st ∧ fs st = Some t' ∧
    stdout st = ["Done"] ∧
    log st = ("Files found: " +:+ repr H (readdir H t0) +:+ nl)
             :: (v3_tells H mapping t0 <$> pre)
             ++ ["Global error: " +:+
                   encode_error H ("Skipped: " +:+ bad +:+ nl) +:+ nl] ∧
    ∀ k v, (k, v) ∈ mapping → k ∈ post →
      t' !! k = t0 !! k ∧ t' !! v = t0 !! v.
Proof.
  intros HR Hsp Hlog Hl Hls Hpre Hbad Hbad'.
  assert (reach mapping (readdir H t0) = pre ∧
          stopper mapping (readdir H t0) = Some bad) as [Hreach Hstop].
  { rewrite Hls. apply reach_stop.
    - apply Forall_forall. intros f Hf. unfold passable.
      destruct (dict_get f mapping) eqn:Hg; [done|]. by apply Hpre.
    - unfold passable. by rewrite Hbad. }
  change (run V3 H (Some t0)) with (rename_images_v3 H (Some t0)).
  rewrite v3_run by done. eexists _, _. split; [done|]. split; [done|].
  split; [done|]. split.
  - cbn [log reported]. rewrite Hreach, Hstop. unfold msg_global, msg_skipped.
    by rewrite !append_assoc.
  - intros k v Hin Hk. unfold after, walked. rewrite Hreach.
    pose proof (proj1 (HR t0)) as Hnd. rewrite Hls in Hnd.
    apply NoDup_app in Hnd as (Hnd & Hdis & Hnd').
    apply (fold_try_fresh _ H mapping mapping_ok); [done| |].
    + intros Hkp. apply (Hdis k Hkp). by right.
    + apply dict_get_elem; [apply keys_nodup, mapping_ok|done].
Qed.

Lemma X4_v3_stops_at_a_name_it_cannot_log_witness :
  let H := host0 Posix in
  let t0 : tree := {[odd_name := Regular 1 "x"]} in
  ∃ st t', run V3 H (Some t0) = Exit0 st ∧ fs st = Some t' ∧
    stdout st = ["Done"] ∧
    log st = ("Files found: " +:+ repr H (readdir H t0) +:+ nl)
             :: (v3_tells H mapping t0 <$> [])
             ++ ["Global error: " +:+
                   encode_error H ("Skipped: " +:+ odd_name +:+ nl) +:+ nl] ∧
    ∀ k v, (k, v) ∈ mapping → k ∈ [] →
      t' !! k = t0 !! k ∧ t' !! v = t0 !! v.
Proof.
  apply (X4_v3_stops_at_a_name_it_cannot_log (host0 Posix)
           {[odd_name := Regular 1 "x"]} [] odd_name []).
  - apply host0_readdir_ok.
  - apply host0_spelled.
  - reflexivity.
  - reflexivity.
  - vm_compute; reflexivity.
  - intros f Hf. by apply elem_of_nil in Hf.
  - vm_compute; reflexivity.
  - vm_compute; reflexivity.
Defined.

(** ** v2 and v3 side by side *)

Lemma tells_not_skipped H t k v :
  is_skipped (tells false H t k v +:+ nl) = false.
Proof. by destruct (tells_forms H t k v) as [->|[text ->]]. Qed.

Lemma v2_v3_records H m t0 files :
  (λ l, l +:+ nl) <$> (files ≫= v2_tells H m t0)
  = filter (λ l, is_skipped l = false) (v3_tells H m t0 <$> files).
Proof.
  induction files as [|f files IH]; [done|].
  rewrite bind_cons, fmap_app, fmap_cons, IH. unfold v2_tells, v3_tells at 2.
  destruct (dict_get f m) as [v|].
  - rewrite filter_cons_True by apply tells_not_skipped. done.
  - rewrite filter_cons_False; [done|].
    destruct (skipped_kind V3 f) as (Hs & _). cbn [line] in Hs.
    by rewrite Hs.
Qed.

(** X5: when the directory can be listed, the log can be opened and
    takes every listed name that is not a key, v2 and v3 leave the same
    directory, and what v3 logs after its listing line, the [Skipped]
    records left out, is what v2 prints after its listing line, each
    record with a line end. *)
Theorem X5_v3_logs_what_v2_prints H t0 :
  readdir_ok H → spelled H → log_ok H = true → listable H = true →
  log_takes H t0 →
  ∃ st2 st3, run V2 H (Some t0) = Exit0 st2 ∧
    run V3 H (Some t0) = Exit0 st3 ∧ fs st2 = fs st3 ∧
    (λ l, l +:+ nl) <$> tail (stdout st2)
    = filter (λ l, is_skipped l = false) (tail (log st3)).
Proof.
  intros HR Hsp Hlog Hl Ht.
  destruct (log_takes_all H t0 Ht) as [Hreach Hstop].
  change (run V2 H (Some t0)) with (rename_images_v2 H (Some t0)).
  change (run V3 H (Some t0)) with (rename_images_v3 H (Some t0)).
  rewrite v2_run, v3_run by done. eexists _, _. split; [done|]. split; [done|].
  split.
  - cbn [fs]. unfold after, walked, probes. by rewrite Hreach.
  - cbn [stdout log reported tail]. rewrite Hreach, Hstop, app_nil_r.
    apply v2_v3_records.
Qed.

Lemma X5_v3_logs_what_v2_prints_witness :
  let t0 : tree := {[cat := Regular 1 "meow"; "notes.txt" := Regular 2 "n"]} in
  ∃ st2 st3, run V2 (host0 Posix) (Some t0) = Exit0 st2 ∧
    run V3 (host0 Posix) (Some t0) = Exit0 st3 ∧ fs st2 = fs st3 ∧
    (λ l, l +:+ nl) <$> tail (stdout st2)
    = filter (λ l, is_skipped l = false) (tail (log st3)).
Proof.
  apply (X5_v3_logs_what_v2_prints (host0 Posix)
           {[cat := Regular 1 "meow"; "notes.txt" := Regular 2 "n"]}).
  - apply host0_readdir_ok.
  - apply host0_spelled.
  - reflexivity.
  - reflexivity.
  - intros f Hf Hg. apply host0_listed in Hf.
    destruct (decide (f = cat)) as [->|Hc]; [by vm_compute in Hg|].
    destruct (decide (f = "notes.txt")) as [->|Hn]; [by vm_compute|].
    rewrite lookup_insert_ne, lookup_singleton_ne in Hf by done.
    by destruct Hf.
Defined.

(** ** Names that are not plain files *)

Lemma reported_entry ver H t0 k v :
  (k, v) ∈ mapping → k ∈ walked ver H t0 →
  line ver (tells (probes ver) H t0 k v) ∈ reported ver H t0.
Proof.
  intros Hin Hw.
  pose proof (dict_get_elem k v mapping (keys_nodup _ mapping_ok) Hin) as Hg.
  destruct ver; unfold reported, walked, probes, line in *.
  - apply list_elem_of_fmap. by exists (k, v).
  - right. apply list_elem_of_bind. exists k. split; [|done].
    unfold v2_tells. rewrite Hg. left.
  - right. apply elem_of_app. left. apply list_elem_of_fmap. exists k.
    split; [|done]. unfold v3_tells. by rewrite Hg.
Qed.

Lemma after_entry ver H t0 k v :
  readdir_ok H → (k, v) ∈ mapping → k ∈ walked ver H t0 →
  after ver H t0 !! k =
    (if is_moved (fate_of (probes ver) H t0 k v) then None else t0 !! k) ∧
  after ver H t0 !! v =
    (if is_moved (fate_of (probes ver) H t0 k v) then t0 !! k else t0 !! v).
Proof.
  intros HR Hin Hw.
  pose proof (dict_get_elem k v mapping (keys_nodup _ mapping_ok) Hin) as Hg.
  rewrite !after_lands by done.
  rewrite (lands_key _ H mapping t0 _ k v Hg).
  rewrite (lands_val _ H mapping mapping_ok t0 _ k v Hg).
  by rewrite bool_decide_true by done.
Qed.

(** X6: a source name that is a dangling symbolic link.
    [os.path.exists] says no for it, so v1 prints [File not found] and
    leaves the link. v2 and v3 do not ask: when the listing shows the
    name as the table spells it, they get to it and [os.rename] does not
    raise, they rename the link and write [Renamed]. *)
Theorem X6_broken_link_under_a_key ver H t0 k v :
  readdir_ok H → spelled H → ready ver H → (ver = V3 → log_takes H t0) →
  (ver ≠ V1 → k ∈ readdir H t0) →
  (k, v) ∈ mapping → t0 !! k = Some Broken →
  (∀ e, os_rename H k v (Some t0) ≠ inl e) →
  ∃ st t', run ver H (Some t0) = Exit0 st ∧ fs st = Some t' ∧
    match ver with
    | V1 => t' !! k = Some Broken ∧ t' !! v = t0 !! v ∧
            msg_not_found k ∈ report ver st
    | _ => t' !! k = None ∧ t' !! v = Some Broken ∧
           line ver (msg_renamed k v) ∈ report ver st
    end.
Proof.
  intros HR Hsp Hr Ht Hls Hin Hk Hren.
  destruct (run_there ver H t0 Hr HR Hsp) as (st & Hrun & Hfs & _ & Hrep).
  exists st, (after ver H t0). split; [done|]. split; [done|].
  assert (k ∈ walked ver H t0) as Hw.
  { eapply walked_present; eauto. }
  destruct (after_entry ver H t0 k v HR Hin Hw) as [Hak Hav].
  pose proof (reported_entry ver H t0 k v Hin Hw) as Hline.
  rewrite Hrep, Hak, Hav. clear Hak Hav Hrep Hrun Hfs.
  assert (fate_of false H t0 k v = Moved Broken) as Hf.
  { pose proof (no_raise_judge H k v t0 Hren) as Hno. clear Hren.
    destruct (Hsp k v Hin) as [Hsk Hsv]. rewrite Hsk, Hsv in Hno.
    specialize (Hno (match judge H k v (t0 !! k) (t0 !! v) with
                     | Raises e => e | _ => ENOENT end)).
    unfold fate_of. cbn [andb]. revert Hno. rewrite Hk. unfold judge.
    destruct (searchable H); [|done]. cbn [negb].
    destruct (locked H !! k); [done|]. destruct (t0 !! v) as [dst|]; [|done].
    pose proof (key_ne_val mapping mapping_ok k v
                  (dict_get_elem k v mapping (keys_nodup _ mapping_ok) Hin)).
    destruct (decide (k = v)); [done|].
    destruct (plat H); cbn [same_file]; by destruct (clash _ Broken dst). }
  destruct ver; cbn [probes line] in *.
  - assert (fate_of true H t0 k v = Absent) as Hf1.
    { unfold fate_of, exists_at. by rewrite Hk, andb_false_r. }
    unfold tells in Hline. rewrite Hf1 in Hline |- *. by cbn [is_moved].
  - unfold tells in Hline. rewrite Hf in Hline |- *. by cbn [is_moved].
  - unfold tells in Hline. rewrite Hf in Hline |- *. by cbn [is_moved].
Qed.

Lemma X6_broken_link_under_a_key_witness :
  let t0 : tree := {[cat := Broken]} in
  ∃ st t', run V2 (host0 Posix) (Some t0) = Exit0 st ∧ fs st = Some t' ∧
    t' !! cat = None ∧ t' !! cat_mascot = Some Broken ∧
    msg_renamed cat cat_mascot ∈ report V2 st.
Proof.
  apply (X6_broken_link_under_a_key V2 (host0 Posix) {[cat := Broken]}
           cat cat_mascot).
  - apply host0_readdir_ok.
  - apply host0_spelled.
  - reflexivity.
  - done.
  - intros _. apply host0_lists. by apply (bool_decide_unpack _).
  - by apply (bool_decide_unpack _).
  - reflexivity.
  - by apply (rename_by_judge _ _ _ _ Broken).
Defined.

(** X7: on POSIX, a source and its destination that are two names of
    one file (hard links), in a directory that can be searched and with
    a source the OS does not refuse to rename. [os.rename] returns
    normally and does nothing, so every version that gets to the entry
    writes [Renamed] for it, and both names are still there
    afterwards. *)
Theorem X7_two_names_of_one_file ver H t0 k v i c c' :
  readdir_ok H → spelled H → ready ver H → (ver = V3 → log_takes H t0) →
  (ver ≠ V1 → k ∈ readdir H t0) →
  plat H = Posix → searchable H = true → locked H !! k = None →
  (k, v) ∈ mapping →
  t0 !! k = Some (Regular i c) → t0 !! v = Some (Regular i c') →
  ∃ st t', run ver H (Some t0) = Exit0 st ∧ fs st = Some t' ∧
    t' !! k = Some (Regular i c) ∧ t' !! v = Some (Regular i c') ∧
    line ver (msg_renamed k v) ∈ report ver st.
Proof.
  intros HR Hsp Hr Ht Hls Hp Hs Hlk Hin Hk Hv.
  destruct (run_there ver H t0 Hr HR Hsp) as (st & Hrun & Hfs & _ & Hrep).
  exists st, (after ver H t0). split; [done|]. split; [done|].
  assert (k ∈ walked ver H t0) as Hw.
  { eapply walked_present; eauto. }
  destruct (after_entry ver H t0 k v HR Hin Hw) as [Hak Hav].
  pose proof (reported_entry ver H t0 k v Hin Hw) as Hline.
  rewrite Hrep, Hak, Hav. clear Hak Hav Hrep Hrun Hfs.
  assert (fate_of (probes ver) H t0 k v = Stayed) as Hf.
  { unfold fate_of, exists_at, judge. rewrite Hs, Hk, Hv, Hlk, Hp.
    cbn [andb negb]. rewrite andb_false_r.
    destruct (decide (k = v)); [done|]. cbn [same_file].
    by rewrite bool_decide_true. }
  unfold tells in Hline. rewrite Hf in Hline |- *. by cbn [is_moved].
Qed.

Lemma X7_two_names_of_one_file_witness :
  let t0 : tree :=
    {[cat := Regular 7 "meow"; cat_mascot := Regular 7 "meow"]} in
  ∃ st t', run V1 (host0 Posix) (Some t0) = Exit0 st ∧ fs st = Some t' ∧
    t' !! cat = Some (Regular 7 "meow") ∧
    t' !! cat_mascot = Some (Regular 7 "meow") ∧
    msg_renamed cat cat_mascot ∈ report V1 st.
Proof.
  apply (X7_two_names_of_one_file V1 (host0 Posix)
           {[cat := Regular 7 "meow"; cat_mascot := Regular 7 "meow"]}
           cat cat_mascot 7 "meow" "meow").
  - apply host0_readdir_ok.
  - apply host0_spelled.
  - reflexivity.
  - done.
  - done.
  - reflexivity.
  - reflexivity.
  - reflexivity.
  - by apply (bool_decide_unpack _).
  - reflexivity.
  - reflexivity.
Defined.


End Full.
